(** * Trigger generator for electrical stimulation: model and properties

    A shallow embedding of [electric_stimulation/trigger_generator_backend.py]
    and of the core-facing slice of [electric_stimulation/trigger_generator_gui.py].

    Conventions of the embedding:
    - a Python [float] is an exact rational ([Q]); the rounding of IEEE
      arithmetic is not modelled, [int(x)] and the comparisons are exact;
    - a Python [int] is a [Z];
    - a Python [str] handled as text is a list of Unicode code points
      ([pystr]); dictionary keys and messages are Rocq strings;
    - a [dict] loaded from JSON is a [gmap string json];
    - the NI-DAQmx driver and the controlling thread are an explicit
      environment ([world]) that is asked for the outcome of each driver call
      and for the value of the stop flag, given the history so far;
    - [DAQWorker.run] is written in a state-and-exception monad whose state
      holds the history of observable events and the local variable [t]. *)

From stdpp Require Import gmap strings list.
From Stdlib Require Import QArith Qround ZArith Lia Lqa.

Set Default Proof Using "Type".

(* ===================================================================== *)
(** * Python and numpy primitives used by the program *)
(* ===================================================================== *)

Module Py.

(** ** Text *)

Definition codepoint := N.
Definition pystr := list codepoint.

(** A string literal of the source, as code points. *)
Definition lit (s : string) : pystr :=
  map Ascii.N_of_ascii (String.list_ascii_of_string s).

(** [str.isspace] on one code point: the characters CPython's
    [_PyUnicode_IsWhitespace] accepts. *)
Definition isspace (c : codepoint) : bool :=
  ((9 <=? c) && (c <=? 13) || (28 <=? c) && (c <=? 32)
   || (c =? 133) || (c =? 160) || (c =? 5760)
   || (8192 <=? c) && (c <=? 8202)
   || (c =? 8232) || (c =? 8233) || (c =? 8239) || (c =? 8287)
   || (c =? 12288))%N.

Fixpoint lstrip (s : pystr) : pystr :=
  match s with
  | [] => []
  | c :: s' => if isspace c then lstrip s' else s
  end.

Definition rstrip (s : pystr) : pystr := rev (lstrip (rev s)).

(** [s.strip()] *)
Definition strip (s : pystr) : pystr := rstrip (lstrip s).

(** Truth value of a string: non-empty. *)
Definition truthy (s : pystr) : bool :=
  match s with [] => false | _ => true end.

(** [a or b] on strings. *)
Definition or_ (a b : pystr) : pystr := if truthy a then a else b.

(** [s.count(c)] for a one-character needle. *)
Fixpoint count (c : codepoint) (s : pystr) : nat :=
  match s with
  | [] => 0
  | x :: s' => ((if (x =? c)%N then 1 else 0) + count c s')%nat
  end.

(** ** Numbers *)

(** [int(x)] on a float: truncation toward zero. *)
Definition int (x : Q) : Z := Z.quot (Qnum x) (Z.pos (Qden x)).

(** The built-in [round(x)]: to the nearest integer, a tie to the even
    one. *)
Definition round (x : Q) : Z :=
  let f := Qfloor x in
  match (x - inject_Z f ?= 1 # 2)%Q with
  | Lt => f
  | Gt => (f + 1)%Z
  | Eq => if Z.even f then f else (f + 1)%Z
  end.

(** [round(x, 2)] *)
Definition round2 (x : Q) : Q := (inject_Z (round (x * 100)) / 100)%Q.

(** [a < b] on floats. *)
Definition Qlt_b (a b : Q) : bool := negb (Qle_bool b a).

(** [a % b] on floats: the result has the sign of [b];
    [None] is [ZeroDivisionError]. *)
Definition fmod (a b : Q) : option Q :=
  if Qeq_bool b 0 then None
  else Some (a - b * inject_Z (Qfloor (a / b)))%Q.

(** ** numpy arrays of floats, one-dimensional *)

Inductive exn A := Val (a : A) | Exc (msg : string).
Arguments Val {A} a.
Arguments Exc {A} msg.

(** [np.zeros(n)] *)
Definition np_zeros (n : Z) : exn (list Q) :=
  if (n <? 0)%Z then Exc "negative dimensions are not allowed"
  else Val (replicate (Z.to_nat n) 0%Q).

(** The stop index of the slice [a[:k]] on an array of length [len]:
    a negative [k] counts from the end, and the result is clipped to
    [0 .. len]. *)
Definition slice_stop (len : nat) (k : Z) : nat :=
  if (k <? 0)%Z then Z.to_nat (Z.of_nat len + k)
  else Nat.min (Z.to_nat k) len.

(** [a[:k] = v] *)
Definition set_prefix (a : list Q) (k : Z) (v : Q) : list Q :=
  let stop := slice_stop (length a) k in
  replicate stop v ++ drop stop a.

Fixpoint repeat_array (a : list Q) (n : nat) : list Q :=
  match n with
  | O => []
  | S n' => a ++ repeat_array a n'
  end.

(** [np.tile(a, reps)]: an empty array is returned as it is, whatever
    [reps]; otherwise a negative [reps] is refused. *)
Definition np_tile (a : list Q) (reps : Z) : exn (list Q) :=
  match a with
  | [] => Val []
  | _ =>
      if (reps <? 0)%Z then Exc "repeats may not contain negative values."
      else Val (repeat_array a (Z.to_nat reps))
  end.

(** [np.concatenate([a, b])] *)
Definition np_concatenate (a b : list Q) : list Q := a ++ b.

End Py.

(* ===================================================================== *)
(** * trigger_generator_backend.py *)
(* ===================================================================== *)

Module Backend.
Import Py.

(** ** build_channel_path *)

Definition build_channel_path (device_str channel_str : pystr) : pystr :=
  let dev := or_ (strip device_str) (lit "Dev2") in
  let ch := or_ (strip channel_str) (lit "ao0") in
  if truthy ch then dev ++ lit "/" ++ ch else dev.

(** ** DAQWorker *)

Record DAQWorker := {
  device : pystr;
  sampling_rate : Q;
  trigger_duration : Q;
  inter_trigger_interval : Q;
  infinite : bool;
  nb_triggers : Z;
  initial_trigger_delay : Q;
  _stop_requested : bool
}.

(** [DAQWorker.__init__] *)
Definition init (device : pystr)
    (sampling_rate trigger_duration inter_trigger_interval : Q)
    (infinite : bool) (nb_triggers : Z) (initial_trigger_delay : Q)
    : DAQWorker :=
  {| device := device;
     sampling_rate := sampling_rate;
     trigger_duration := trigger_duration;
     inter_trigger_interval := inter_trigger_interval;
     infinite := infinite;
     nb_triggers := nb_triggers;
     initial_trigger_delay := initial_trigger_delay;
     _stop_requested := false |}.

(** [DAQWorker.stop] *)
Definition stop (self : DAQWorker) : DAQWorker :=
  {| device := device self;
     sampling_rate := sampling_rate self;
     trigger_duration := trigger_duration self;
     inter_trigger_interval := inter_trigger_interval self;
     infinite := infinite self;
     nb_triggers := nb_triggers self;
     initial_trigger_delay := initial_trigger_delay self;
     _stop_requested := true |}.

(** The parameters a run is started with by the window: the ranges of
    its spin boxes, which are the invariants of the specification's
    GenerationParameters (positive rate and trigger duration,
    non-negative interval and delay, at least one trigger). *)
Definition valid (self : DAQWorker) : Prop :=
  (0 < sampling_rate self)%Q /\ (0 < trigger_duration self)%Q /\
  (0 <= inter_trigger_interval self)%Q /\
  (0 <= initial_trigger_delay self)%Q /\
  (0 < nb_triggers self)%Z.

(** ** The sample counts and buffers computed at the start of [run] *)

Definition initial_delay_samples (self : DAQWorker) : Z :=
  int (initial_trigger_delay self * sampling_rate self).

Definition trigger_samples (self : DAQWorker) : Z :=
  int (trigger_duration self * sampling_rate self).

Definition interval_samples (self : DAQWorker) : Z :=
  int (inter_trigger_interval self * sampling_rate self).

Definition samples_per_cycle (self : DAQWorker) : Z :=
  (trigger_samples self + interval_samples self)%Z.

(** [Sig_cycle = np.zeros(samples_per_cycle); Sig_cycle[:trigger_samples] = 2.0] *)
Definition Sig_cycle (self : DAQWorker) : exn (list Q) :=
  match np_zeros (samples_per_cycle self) with
  | Exc msg => Exc msg
  | Val z => Val (set_prefix z (trigger_samples self) 2)
  end.

(** The finite-mode buffer:
    [np.concatenate([np.zeros(initial_delay_samples),
                     np.tile(Sig_cycle, self.nb_triggers)])] *)
Definition finite_data (self : DAQWorker) (cycle : list Q) : exn (list Q) :=
  match np_zeros (initial_delay_samples self) with
  | Exc msg => Exc msg
  | Val z =>
      match np_tile cycle (nb_triggers self) with
      | Exc msg => Exc msg
      | Val tiled => Val (np_concatenate z tiled)
      end
  end.

(** ** The environment of a run: driver, signals, controlling thread *)

(** The three task objects [run] can create, named after the local
    variable each is bound to ([t_main] is [t]). *)
Inductive task := t_delay | t_main | t_zero.

Inductive sample_mode := DAQmx_Val_FiniteSamps | DAQmx_Val_ContSamps.

(** The PyDAQmx calls of [run]; [Task h] is [nidaq.Task()] whose result
    is bound to [h]. Constant arguments of the source are left out. *)
Inductive daq_call :=
| Task (h : task)
| CreateAOVoltageChan (h : task) (physicalChannel : pystr)
| CfgSampClkTiming (h : task) (rate : Q) (mode : sample_mode)
    (sampsPerChan : Z)
| WriteAnalogF64 (h : task) (numSamps : Z) (autoStart : bool)
    (data : list Q)
| StartTask (h : task)
| StopTask (h : task)
| ClearTask (h : task)
| WaitUntilTaskDone (h : task) (timeToWait : Q)
| WriteAnalogScalarF64 (h : task) (value : Q).

(** What an observer of a run sees, in order: the three Qt signals, the
    driver calls with their outcome ([Some msg]: the call raised an
    exception whose [str] is [msg]) and the calls of [time.sleep]. *)
Inductive event :=
| started_emit
| error_emit (msg : string)
| finished_emit
| daq (c : daq_call) (raised : option string)
| sleep (seconds : Q).

Record world := {
  (** the module-level flag set by [import PyDAQmx] *)
  DAQ_AVAILABLE : bool;
  (** outcome of a driver call made after the given history *)
  driver : list event -> daq_call -> option string;
  (** whether the controlling thread has called [stop] by the time the
      worker reads the flag, after the given history *)
  stop_set : list event -> bool;
  (** [hasattr(t_zero, 'WriteAnalogScalarF64')] *)
  has_WriteAnalogScalarF64 : bool
}.

(** ** State and exceptions *)

(** [local_t]: the local variable [t] of [run], read again by the
    [finally] block: [None] is unbound, [Some None] is Python's [None].
    [local_t_zero]: the local variable [t_zero]. *)
Record state := {
  history : list event;
  local_t : option (option task);
  local_t_zero : option task
}.

Inductive result A := Ret (a : A) | Raise (msg : string) | OutOfFuel.
Arguments Ret {A} a.
Arguments Raise {A} msg.
Arguments OutOfFuel {A}.

Definition M (A : Type) : Type := state -> result A * state.

Definition ret {A} (a : A) : M A := fun s => (Ret a, s).

Definition bind {A B} (m : M A) (k : A -> M B) : M B :=
  fun s =>
    match m s with
    | (Ret a, s') => k a s'
    | (Raise msg, s') => (Raise msg, s')
    | (OutOfFuel, s') => (OutOfFuel, s')
    end.

Definition out_of_fuel {A} : M A := fun s => (OutOfFuel, s).

(** [try: m  except Exception as e: h(str(e))] *)
Definition try_except {A} (m : M A) (h : string -> M A) : M A :=
  fun s =>
    match m s with
    | (Raise msg, s') => h msg s'
    | r => r
    end.

(** [try: m  finally: f]. An exception of [f] replaces the outcome of
    [m]. *)
Definition try_finally {A} (m : M A) (f : M unit) : M A :=
  fun s =>
    match m s with
    | (OutOfFuel, s') => (OutOfFuel, s')
    | (r, s') =>
        match f s' with
        | (Ret _, s'') => (r, s'')
        | (Raise msg, s'') => (Raise msg, s'')
        | (OutOfFuel, s'') => (OutOfFuel, s'')
        end
    end.

Notation "'let!' x := m 'in' k" := (bind m (fun x => k))
  (at level 10, x name, m at level 100, k at level 200).
Notation "m >> k" := (bind m (fun _ => k))
  (at level 65, right associativity).

Definition lift {A} (x : exn A) : M A :=
  fun s => match x with Val a => (Ret a, s) | Exc msg => (Raise msg, s) end.

Definition record (e : event) (s : state) : state :=
  {| history := history s ++ [e];
     local_t := local_t s;
     local_t_zero := local_t_zero s |}.

(** A signal emission or a sleep. *)
Definition log (e : event) : M unit := fun s => (Ret tt, record e s).

Definition assign_t (v : option task) : M unit :=
  fun s => (Ret tt, {| history := history s;
                       local_t := Some v;
                       local_t_zero := local_t_zero s |}).

Definition read_t : M (option (option task)) :=
  fun s => (Ret (local_t s), s).

Definition assign_t_zero (v : option task) : M unit :=
  fun s => (Ret tt, {| history := history s;
                       local_t := local_t s;
                       local_t_zero := v |}).

Definition read_t_zero : M (option task) :=
  fun s => (Ret (local_t_zero s), s).

(** The frame of [run] on entry: nothing happened, no local is bound. *)
Definition fresh : state :=
  {| history := []; local_t := None; local_t_zero := None |}.

Section Run.
Variable w : world.
Variable self : DAQWorker.

(** A driver call: it is recorded with its outcome, and raises when
    the driver says so. *)
Definition call (c : daq_call) : M unit :=
  fun s =>
    match driver w (history s) c with
    | None => (Ret tt, record (daq c None) s)
    | Some msg => (Raise msg, record (daq c (Some msg)) s)
    end.

(** Reading [self._stop_requested]: set before the run started, or
    set since by the controlling thread. *)
Definition stop_requested : M bool :=
  fun s => (Ret (_stop_requested self || stop_set w (history s)), s).

(** [while not self._stop_requested and elapsed < timeout:
       try: h.WaitUntilTaskDone(1.0); break
       except Exception: elapsed += 1.0] *)
Fixpoint wait_done (fuel : nat) (h : task) (timeout : Q) (elapsed : Z)
    : M unit :=
  match fuel with
  | O => out_of_fuel
  | S fuel' =>
      let! stopped := stop_requested in
      if negb stopped && Qlt_b (inject_Z elapsed) timeout then
        let! done := try_except (call (WaitUntilTaskDone h 1) >> ret true)
                                (fun _ => ret false) in
        if done then ret tt
        else wait_done fuel' h timeout (elapsed + 1)
      else ret tt
  end.

(** [while not self._stop_requested: time.sleep(0.1)] *)
Fixpoint poll_stop (fuel : nat) : M unit :=
  match fuel with
  | O => out_of_fuel
  | S fuel' =>
      let! stopped := stop_requested in
      if stopped then ret tt
      else log (sleep (1 # 10)) >> poll_stop fuel'
  end.

(** Creating and starting the main task on a buffer; the source has
    this sequence three times, twice with [DAQmx_Val_ContSamps] on the
    cycle and once with [DAQmx_Val_FiniteSamps] on the whole train. *)
Definition start_main (mode : sample_mode) (n : Z) (data : list Q)
    : M unit :=
  call (Task t_main) >>
  assign_t (Some t_main) >>
  call (CreateAOVoltageChan t_main (device self)) >>
  call (CfgSampClkTiming t_main (sampling_rate self) mode n) >>
  call (WriteAnalogF64 t_main n false data) >>
  call (StartTask t_main).

(** The finite-mode timeout of the main loop. *)
Definition finite_timeout : Q :=
  initial_trigger_delay self
  + inject_Z (nb_triggers self)
    * (inter_trigger_interval self + trigger_duration self)
  + 10.

(** The body of the [try] block of [run]. *)
Definition generate (fuel : nat) : M unit :=
  if negb (DAQ_AVAILABLE w) then
    log (error_emit "PyDAQmx is not installed.")
  else
    let ids := initial_delay_samples self in
    let spc := samples_per_cycle self in
    let! cycle := lift (Sig_cycle self) in
    assign_t None >>
    (if infinite self then
       if (0 <? ids)%Z then
         log started_emit >>
         call (Task t_delay) >>
         call (CreateAOVoltageChan t_delay (device self)) >>
         call (CfgSampClkTiming t_delay (sampling_rate self)
                 DAQmx_Val_FiniteSamps ids) >>
         (let! zeros := lift (np_zeros ids) in
          call (WriteAnalogF64 t_delay ids false zeros) >>
          call (StartTask t_delay) >>
          wait_done fuel t_delay (initial_trigger_delay self + 5) 0 >>
          call (StopTask t_delay) >>
          call (ClearTask t_delay) >>
          (let! stopped := stop_requested in
           if stopped then assign_t None
           else start_main DAQmx_Val_ContSamps spc cycle))
       else start_main DAQmx_Val_ContSamps spc cycle
     else
       let! data := lift (finite_data self cycle) in
       let nb_samples := Z.of_nat (length data) in
       start_main DAQmx_Val_FiniteSamps nb_samples data) >>
    (if infinite self && (ids =? 0)%Z then log started_emit
     else if negb (infinite self) then log started_emit
     else ret tt) >>
    (let! t := read_t in
     match t with
     | Some (Some h) =>
         (if infinite self then poll_stop fuel
          else wait_done fuel h finite_timeout 0) >>
         call (StopTask h) >>
         call (ClearTask h)
     | _ => ret tt
     end).

(** First part of the [finally] block: stop and release [t]. An
    unbound [t] raises [NameError], which is caught. *)
Definition release_t : M unit :=
  let! t := read_t in
  match t with
  | Some (Some h) =>
      try_except (call (StopTask h)) (fun _ => ret tt) >>
      try_except (call (ClearTask h)) (fun _ => ret tt)
  | Some None => ret tt
  | None => ret tt
  end.

(** Last part of the [finally] block: a fresh task writes 0 V, with
    [WriteAnalogScalarF64] when the binding has it and with a buffer of
    one sample otherwise; then the task is stopped and cleared. *)
Definition write_zero : M unit :=
  assign_t_zero (Some t_zero) >>
  call (CreateAOVoltageChan t_zero (device self)) >>
  if has_WriteAnalogScalarF64 w then
    call (StartTask t_zero) >>
    call (WriteAnalogScalarF64 t_zero 0)
  else
    call (CfgSampClkTiming t_zero 1000 DAQmx_Val_FiniteSamps 1) >>
    call (WriteAnalogF64 t_zero 1 true [0%Q]) >>
    try_except (call (WaitUntilTaskDone t_zero 10)) (fun _ => ret tt).

Definition release_t_zero : M unit :=
  let! tz := read_t_zero in
  match tz with
  | Some h =>
      try_except (call (StopTask h) >> call (ClearTask h))
                 (fun _ => ret tt)
  | None => ret tt
  end.

Definition force_zero : M unit :=
  assign_t_zero None >>
  try_finally
    (try_except (call (Task t_zero) >> write_zero) (fun _ => ret tt))
    release_t_zero.

(** The safe-shutdown sequence: the [if DAQ_AVAILABLE:] block. *)
Definition safe_shutdown : M unit :=
  release_t >> log (sleep (1 # 20)) >> force_zero.

(** [DAQWorker.run] *)
Definition run (fuel : nat) : M unit :=
  try_finally
    (try_except (generate fuel) (fun msg => log (error_emit msg)))
    ((if DAQ_AVAILABLE w then safe_shutdown else ret tt) >>
     log finished_emit).

Inductive outcome :=
| Finished (trace : list event)
| Uncaught (msg : string) (trace : list event)
| Diverged.

(** A whole run from a fresh frame, with [fuel] bounding the number of
    iterations of each polling loop. *)
Definition execute (fuel : nat) : outcome :=
  match run fuel fresh with
  | (Ret _, s) => Finished (history s)
  | (Raise msg, s) => Uncaught msg (history s)
  | (OutOfFuel, _) => Diverged
  end.

End Run.

(** ** Reading a trace *)

Definition task_of (c : daq_call) : task :=
  match c with
  | Task h | CreateAOVoltageChan h _ | CfgSampClkTiming h _ _ _
  | WriteAnalogF64 h _ _ _ | StartTask h | StopTask h | ClearTask h
  | WaitUntilTaskDone h _ | WriteAnalogScalarF64 h _ => h
  end.

(** The settle delay that opens the forcing of the output to 0 V. *)
Definition is_settle (e : event) : bool :=
  match e with sleep s => Qeq_bool s (1 # 20) | _ => false end.

(** A driver call on the task of the shutdown sequence. *)
Definition on_t_zero (e : event) : bool :=
  match e with
  | daq c _ => match task_of c with t_zero => true | _ => false end
  | _ => false
  end.

(** The creation of the task of the shutdown sequence. *)
Definition opens_t_zero (e : event) : bool :=
  match e with daq (Task t_zero) _ => true | _ => false end.

(** A call on the zero task once it exists. *)
Definition uses_t_zero (e : event) : bool :=
  on_t_zero e && negb (opens_t_zero e).

Definition is_finished (e : event) : bool :=
  match e with finished_emit => true | _ => false end.

Definition is_error (e : event) : bool :=
  match e with error_emit _ => true | _ => false end.

(** The signals that tell the window a run is over: [finished] and
    [error] (whose slot runs the same clean-up as [finished]'s). *)
Definition is_terminal (e : event) : bool := is_finished e || is_error e.

(** Stopping or clearing the main task. *)
Definition releases_t (e : event) : bool :=
  match e with
  | daq (StopTask t_main) _ | daq (ClearTask t_main) _ => true
  | _ => false
  end.

(** What the generation itself does: the started signal, calls on the
    delay task and on the main task, and the polling sleep. *)
Definition generating (e : event) : bool :=
  match e with
  | started_emit => true
  | daq c _ => match task_of c with t_zero => false | _ => true end
  | sleep s => Qeq_bool s (1 # 10)
  | _ => false
  end.

(** The error signal that [run] emits for the outcome of [generate]. *)
Definition reported {A} (r : result A) : list event :=
  match r with
  | Raise msg => [error_emit msg]
  | _ => []
  end.

(** ** Reasoning about computations *)

(** The frames of [run]: [t] is unbound, [None] or the main task, and
    [t_zero] is [None] or the zero task. *)
Definition well_framed (s : state) : Prop :=
  (local_t s = None \/ local_t s = Some None
   \/ local_t s = Some (Some t_main))
  /\ (local_t_zero s = None \/ local_t_zero s = Some t_zero).

(** [m] only appends events that satisfy [P], whatever its outcome. *)
Definition emits {A} (P : event -> Prop) (m : M A) : Prop :=
  forall s, well_framed s ->
    well_framed (m s).2
    /\ exists evs, history (m s).2 = history s ++ evs /\ Forall P evs.

(** [m] does not run out of fuel. *)
Definition halts {A} (m : M A) : Prop :=
  forall s, (m s).1 <> OutOfFuel.

(** [m] returns normally. *)
Definition returns {A} (m : M A) : Prop :=
  forall s, exists a, (m s).1 = Ret a.

(** The controlling thread stops the worker at some point. *)
Definition stopped_eventually (w : world) (self : DAQWorker) : Prop :=
  _stop_requested self = true
  \/ exists n : nat, forall h, (n <= length h)%nat -> stop_set w h = true.

(** Fuel that is enough for every polling loop of a run that is finite
    or stopped after [n] events. *)
Definition enough_fuel (self : DAQWorker) (n : nat) : nat :=
  (n + Z.to_nat (Qceiling (initial_trigger_delay self + 5))
   + Z.to_nat (Qceiling (finite_timeout self)) + 2)%nat.

Definition occurrences (f : event -> bool) (tr : list event) : nat :=
  length (List.filter f tr).

(** The shape of a safe-shutdown sequence: the main task released (when
    there is one), the settle delay, the creation of the zero task, and
    then only calls on the zero task. *)
Definition shutdown_sequence (sd : list event) : Prop :=
  exists (rel : list event) (r : option string) (zs : list event),
    sd = rel ++ sleep (1 # 20) :: daq (Task t_zero) r :: zs
    /\ Forall (fun e => releases_t e = true) rel
    /\ Forall (fun e => uses_t_zero e = true) zs.

End Backend.

(* ===================================================================== *)
(** * trigger_generator_gui.py (the slice that talks to the worker) *)
(* ===================================================================== *)

Module Gui.
Import Py Backend.

(** [self.worker_params]: the dictionary literal built by
    [start_generation], always with these eight keys; a record whose
    fields are named after the keys. *)
Record worker_params := {
  p_device : pystr;
  p_channel : pystr;
  p_sampling_rate : Q;
  p_initial_trigger_delay : Q;
  p_trigger : Q;
  p_interval : Q;
  p_infinite : bool;
  p_nb_triggers : Z
}.

(** ** The state indicator *)

Inductive phase := InitialDelay | Active | Interval | Done.

(** The text shown for each phase. *)
Definition text (ph : phase) : string :=
  match ph with
  | InitialDelay => "(0V)"
  | Active => "Trigger (2V)"
  | Interval => "0V (interval)"
  | Done => "Done"
  end.

Inductive indication :=
| Shown (ph : phase) (remaining : option Q)
    (** label and the seconds handed to [format_countdown]; [None] is
        the dash displayed with [Done] *)
| ZeroDivisionError.

(** The computation of [update_state_indicator] from [p] and [elapsed]
    on. *)
Definition state_indicator (p : worker_params) (elapsed : Q) : indication :=
  let initial_delay := p_initial_trigger_delay p in
  let trigger := p_trigger p in
  let interval := p_interval p in
  let cycle_duration := (trigger + interval)%Q in
  let in_cycle (pos_in_cycle : option Q) :=
    match pos_in_cycle with
    | None => ZeroDivisionError
    | Some pos =>
        if Qlt_b pos trigger then Shown Active (Some (trigger - pos)%Q)
        else Shown Interval (Some (cycle_duration - pos)%Q)
    end in
  if Qlt_b elapsed initial_delay then
    Shown InitialDelay (Some (initial_delay - elapsed)%Q)
  else
    let cycle_time := (elapsed - initial_delay)%Q in
    if p_infinite p then in_cycle (fmod cycle_time cycle_duration)
    else
      let total_cycles := (inject_Z (p_nb_triggers p) * cycle_duration)%Q in
      if Qle_bool total_cycles cycle_time then Shown Done None
      else in_cycle (fmod cycle_time cycle_duration).

(** The phase alone; [None] when the computation raised. *)
Definition phase_at (p : worker_params) (elapsed : Q) : option phase :=
  match state_indicator p elapsed with
  | Shown ph _ => Some ph
  | ZeroDivisionError => None
  end.

(** Two indications that show the same phase and equal remaining times
    (as rationals). *)
Definition same_remaining (a b : option Q) : Prop :=
  match a, b with
  | Some x, Some y => (x == y)%Q
  | None, None => True
  | _, _ => False
  end.

Definition same_indication (a b : indication) : Prop :=
  match a, b with
  | Shown ph r, Shown ph' r' => ph = ph' /\ same_remaining r r'
  | ZeroDivisionError, ZeroDivisionError => True
  | _, _ => False
  end.

(** ** The window, as far as the worker is concerned *)

Record TriggerGeneratorWindow := {
  worker : option DAQWorker;
  state_start_time : option Q;
  params : option worker_params
}.

(** [__init__] *)
Definition new_window : TriggerGeneratorWindow :=
  {| worker := None; state_start_time := None; params := None |}.

(** [stop_generation] *)
Definition stop_generation (win : TriggerGeneratorWindow)
    : TriggerGeneratorWindow :=
  match worker win with
  | Some wk =>
      {| worker := Some (stop wk);
         state_start_time := state_start_time win;
         params := params win |}
  | None => win
  end.

(** [update_state_indicator] at wall-clock time [now]; [None]: the
    early return, nothing is displayed. *)
Definition update_state_indicator (win : TriggerGeneratorWindow) (now : Q)
    : option indication :=
  match state_start_time win, params win with
  | Some start, Some p => Some (state_indicator p (now - start))
  | _, _ => None
  end.

(** The slots the window connects to the worker's signals, and the
    slots each of them runs in turn: [on_generation_error] calls
    [on_generation_finished] itself. *)
Inductive slot :=
| on_generation_started
| on_generation_finished
| on_generation_error (msg : string).

Definition connected (e : event) : list slot :=
  match e with
  | started_emit => [on_generation_started]
  | finished_emit => [on_generation_finished]
  | error_emit msg => [on_generation_error msg; on_generation_finished]
  | _ => []
  end.

(** The slots run in the controlling thread over a whole trace. *)
Definition delivered (tr : list event) : list slot :=
  concat (map connected tr).

(** ** Persistence of the parameters *)

(** A value of a flat JSON record. *)
Inductive json :=
| JNull
| JBool (b : bool)
| JInt (n : Z)
| JFloat (x : Q)
| JStr (s : pystr).

(** The dictionary written by [save_params_to_json]; the two time stamps
    are the strings produced by [strftime]. *)
Definition save_params_to_json (p : worker_params) (duration_seconds : Q)
    (exp_time now : pystr) : gmap string json :=
  list_to_map
    [ ("device", JStr (p_device p));
      ("channel", JStr (p_channel p));
      ("sampling_rate", JFloat (p_sampling_rate p));
      ("trigger_duration", JFloat (p_trigger p));
      ("inter_trigger_interval", JFloat (p_interval p));
      ("initial_trigger_delay", JFloat (p_initial_trigger_delay p));
      ("infinite", JBool (p_infinite p));
      ("nb_triggers", JInt (p_nb_triggers p));
      ("duree_secondes", JFloat (round2 duration_seconds));
      ("heure_debut", JStr exp_time);
      ("heure_fin", JStr now) ].

(** [data.get(key, fallback)] *)
Definition get (data : gmap string json) (key : string) (fallback : json)
    : json :=
  default fallback (data !! key).

(** What [load_params_from_json] hands to each widget setter, in the
    order of the source. The widgets themselves (range clamping, type
    checks of the Qt bindings) are outside the model. *)
Record form := {
  device_edit : json;
  channel_edit : json;
  sampling_rate_spin : json;
  trigger_duration_spin : json;
  inter_trigger_spin : json;
  initial_trigger_delay_spin : json;
  infinite_check : json;
  nb_triggers_spin : json
}.

Definition load_params_from_json (data : gmap string json) : form :=
  {| device_edit := get data "device" (JStr (lit "Dev2"));
     channel_edit := get data "channel" (JStr (lit "ao0"));
     sampling_rate_spin := get data "sampling_rate" (JInt 1000);
     trigger_duration_spin :=
       get data "trigger_duration"
         (get data "pulse_duration" (JFloat (2 # 10)));
     inter_trigger_spin :=
       get data "inter_trigger_interval"
         (get data "inter_pulse_interval" (JInt 20));
     initial_trigger_delay_spin := get data "initial_trigger_delay" (JInt 5);
     infinite_check := get data "infinite" (JBool true);
     nb_triggers_spin :=
       get data "nb_triggers" (get data "nb_pulses" (JInt 5)) |}.

End Gui.

(* ===================================================================== *)
(** * trigger_generator_gui.py: starting a run and handling its signals *)
(* ===================================================================== *)

Module Window.
Import Py Backend Gui.

(** The values [start_generation] reads from the widgets. *)
Record inputs := {
  device_text : pystr;
  channel_text : pystr;
  sampling_rate_value : Q;
  trigger_duration_value : Q;
  inter_trigger_value : Q;
  initial_trigger_delay_value : Q;
  infinite_checked : bool;
  nb_triggers_value : Z
}.

(** [start_generation]; [running] is
    [self.worker_thread and self.worker_thread.isRunning()]. *)
Definition start_generation (running : bool) (ui : inputs)
    (win : TriggerGeneratorWindow) : TriggerGeneratorWindow :=
  if running then win
  else
    let device := build_channel_path (device_text ui) (channel_text ui) in
    {| worker :=
         Some (init device (sampling_rate_value ui)
                 (trigger_duration_value ui) (inter_trigger_value ui)
                 (infinite_checked ui) (nb_triggers_value ui)
                 (initial_trigger_delay_value ui));
       state_start_time := state_start_time win;
       params :=
         Some {| p_device := strip (device_text ui);
                 p_channel := strip (channel_text ui);
                 p_sampling_rate := sampling_rate_value ui;
                 p_initial_trigger_delay := initial_trigger_delay_value ui;
                 p_trigger := trigger_duration_value ui;
                 p_interval := inter_trigger_value ui;
                 p_infinite := infinite_checked ui;
                 p_nb_triggers := nb_triggers_value ui |} |}.

(** [on_generation_started] at wall-clock time [now]. *)
Definition on_generation_started (now : Q) (win : TriggerGeneratorWindow)
    : TriggerGeneratorWindow :=
  {| worker := worker win;
     state_start_time := Some now;
     params := params win |}.

(** [on_generation_finished] at wall-clock time [now]: the window it
    leaves and the record it writes, if any. [exp_time] and [now_str] are
    the two time stamps of the record. *)
Definition on_generation_finished (now : Q) (exp_time now_str : pystr)
    (win : TriggerGeneratorWindow)
    : TriggerGeneratorWindow * option (gmap string json) :=
  let written :=
    match state_start_time win with
    | Some start =>
        let duration := (now - start)%Q in
        match params win with
        | Some p => Some (save_params_to_json p duration exp_time now_str)
        | None => None
        end
    | None => None
    end in
  ({| worker := worker win; state_start_time := None; params := params win |},
   written).

(** What the window has done so far: the records written and the error
    dialogs shown. *)
Record session := {
  window : TriggerGeneratorWindow;
  files : list (gmap string json);
  dialogs : list string
}.

Definition finish (now : Q) (exp_time now_str : pystr) (ss : session)
    : session :=
  let (win, written) :=
    on_generation_finished now exp_time now_str (window ss) in
  {| window := win;
     files := files ss ++ match written with Some f => [f] | None => [] end;
     dialogs := dialogs ss |}.

(** [on_generation_error]: the clean-up of [on_generation_finished], then
    the dialog. *)
Definition on_generation_error (msg : string) (now : Q)
    (exp_time now_str : pystr) (ss : session) : session :=
  let ss' := finish now exp_time now_str ss in
  {| window := window ss'; files := files ss';
     dialogs := dialogs ss' ++ [msg] |}.

(** The slot run for one event of the worker, as connected by
    [start_generation]; [clock] gives the wall-clock time and the formatted
    date at which the [i]-th event is handled. *)
Definition on_event (clock : nat -> Q * pystr) (exp_time : pystr) (i : nat)
    (e : event) (ss : session) : session :=
  match e with
  | started_emit =>
      {| window := on_generation_started (clock i).1 (window ss);
         files := files ss; dialogs := dialogs ss |}
  | finished_emit => finish (clock i).1 exp_time (clock i).2 ss
  | error_emit msg =>
      on_generation_error msg (clock i).1 exp_time (clock i).2 ss
  | _ => ss
  end.

(** The signals of a trace, handled in order from the [i]-th on. *)
Fixpoint handle (clock : nat -> Q * pystr) (exp_time : pystr) (i : nat)
    (tr : list event) (ss : session) : session :=
  match tr with
  | [] => ss
  | e :: tr' =>
      handle clock exp_time (S i) tr' (on_event clock exp_time i e ss)
  end.

Definition is_started (e : event) : bool :=
  match e with started_emit => true | _ => false end.

Definition is_signal (e : event) : bool :=
  match e with
  | started_emit | error_emit _ | finished_emit => true
  | _ => false
  end.

End Window.

(* ===================================================================== *)
(** * Notions used in the statements, and scenarios *)
(* ===================================================================== *)

Import Py Backend Gui.

Local Open Scope Q_scope.

Definition slash : codepoint := 47%N.

(** The device part and the channel part of the path. *)
Definition device_part (device_str : pystr) : pystr :=
  if forallb isspace device_str then lit "Dev2" else strip device_str.

Definition channel_part (channel_str : pystr) : pystr :=
  if forallb isspace channel_str then lit "ao0" else strip channel_str.

(** Truncation toward zero, by cases on the sign. *)
Definition toward_zero (x : Q) : Z :=
  if Qle_bool 0 x then Qfloor x else Qceiling x.

(** A worker with a 19 ms trigger at 100 Hz: 1.9 samples. *)
Definition short_trigger : DAQWorker :=
  init (lit "Dev2/ao0") 100 (19 # 1000) 20 true 5 5.

(** A finite train: 3 triggers of 0.2 s every 0.5 s after 0.1 s, at 10 Hz. *)
Definition short_train : DAQWorker :=
  init (lit "Dev2/ao0") 10 (2 # 10) (3 # 10) false 3 (1 # 10).

(** Scenario (b) of the specification: 0.2 s triggers, no interval, no
    delay, three triggers. *)
Definition three_triggers : worker_params :=
  {| p_device := lit "Dev2"; p_channel := lit "ao0";
     p_sampling_rate := 1000; p_initial_trigger_delay := 0;
     p_trigger := 2 # 10; p_interval := 0;
     p_infinite := false; p_nb_triggers := 3 |}.

(** Scenario (a) of the specification: 0.2 s triggers every 20.2 s after
    5 s, for ever. *)
Definition default_params : worker_params :=
  {| p_device := lit "Dev2"; p_channel := lit "ao0";
     p_sampling_rate := 1000; p_initial_trigger_delay := 5;
     p_trigger := 2 # 10; p_interval := 20;
     p_infinite := true; p_nb_triggers := 5 |}.

(** The field names as the specification lists them. *)
Definition listed_fields : gset string :=
  list_to_set
    [ "device"; "channel"; "sampling_rate"; "trigger_duration";
      "inter_trigger_interval"; "initial_trigger_delay"; "infinite";
      "nb_triggers"; "duration_seconds"; "start_time"; "end_time" ]%string.

(** The field names of a saved record. *)
Definition saved_fields : gset string :=
  list_to_set
    [ "device"; "channel"; "sampling_rate"; "trigger_duration";
      "inter_trigger_interval"; "initial_trigger_delay"; "infinite";
      "nb_triggers"; "duree_secondes"; "heure_debut"; "heure_fin" ]%string.

(** The keys [load_params_from_json] looks up. *)
Definition read_keys : list string :=
  [ "device"; "channel"; "sampling_rate"; "trigger_duration";
    "pulse_duration"; "inter_trigger_interval"; "inter_pulse_interval";
    "initial_trigger_delay"; "infinite"; "nb_triggers"; "nb_pulses" ]%string.

(** The form filled with the defaults of the source. *)
Definition default_form : form :=
  {| device_edit := JStr (lit "Dev2");
     channel_edit := JStr (lit "ao0");
     sampling_rate_spin := JInt 1000;
     trigger_duration_spin := JFloat (2 # 10);
     inter_trigger_spin := JInt 20;
     initial_trigger_delay_spin := JInt 5;
     infinite_check := JBool true;
     nb_triggers_spin := JInt 5 |}.

(** A file written by an older version, with only two of the fields. *)
Definition old_file : gmap string json :=
  list_to_map [ ("pulse_duration"%string, JFloat (1 # 2));
                ("infinite"%string, JBool false) ].

(** A driver that never fails and a controlling thread that never asks for
    a stop. *)
Definition quiet_world : world :=
  {| DAQ_AVAILABLE := true;
     driver := fun _ _ => None;
     stop_set := fun _ => false;
     has_WriteAnalogScalarF64 := true |}.

(** The same without PyDAQmx. *)
Definition no_driver : world :=
  {| DAQ_AVAILABLE := false;
     driver := fun _ _ => None;
     stop_set := fun _ => false;
     has_WriteAnalogScalarF64 := true |}.

(** A driver that fails to start the delay task. *)
Definition delay_start_fails : world :=
  {| DAQ_AVAILABLE := true;
     driver := fun _ c =>
       match c with
       | StartTask t_delay => Some "Start failed"%string
       | _ => None
       end;
     stop_set := fun _ => false;
     has_WriteAnalogScalarF64 := true |}.

(** An endless train with half a second of initial delay, at 10 Hz. *)
Definition delayed_train : DAQWorker :=
  init (lit "Dev2/ao0") 10 (2 # 10) (3 # 10) true 5 (1 # 2).

(** A driver that refuses to create the main task. *)
Definition busy_device : world :=
  {| DAQ_AVAILABLE := true;
     driver := fun _ c =>
       match c with
       | Task t_main => Some "Device is reserved"%string
       | _ => None
       end;
     stop_set := fun _ => false;
     has_WriteAnalogScalarF64 := true |}.

(** A cycle of zero length, for ever. *)
Definition zero_cycle : worker_params :=
  {| p_device := lit "Dev2"; p_channel := lit "ao0";
     p_sampling_rate := 1000; p_initial_trigger_delay := 1;
     p_trigger := 0; p_interval := 0;
     p_infinite := true; p_nb_triggers := 5 |}.

(** ** Notions for the further properties of [run] *)

Definition is_wait (c : daq_call) : bool :=
  match c with WaitUntilTaskDone _ _ => true | _ => false end.

(** An event on the main task. *)
Definition on_t_main (e : event) : bool :=
  match e with
  | daq c _ => match task_of c with t_main => true | _ => false end
  | _ => false
  end.

(** Waiting for the generation: a wait for the end of the delay task or of
    the main task, or the polling sleep of the infinite mode. *)
Definition waits (e : event) : bool :=
  match e with
  | daq (WaitUntilTaskDone t_zero _) _ => false
  | daq (WaitUntilTaskDone _ _) _ => true
  | sleep s => Qeq_bool s (1 # 10)
  | _ => false
  end.

(** The events of a forcing of the output to 0 V in which no driver call
    fails, with [WriteAnalogScalarF64] ([scalar]) or with a buffer of one
    sample. *)
Definition zero_events (scalar : bool) (dev : pystr) : list event :=
  [ daq (Task t_zero) None; daq (CreateAOVoltageChan t_zero dev) None ]
  ++ (if scalar then
        [ daq (StartTask t_zero) None;
          daq (WriteAnalogScalarF64 t_zero 0) None ]
      else
        [ daq (CfgSampClkTiming t_zero 1000 DAQmx_Val_FiniteSamps 1) None;
          daq (WriteAnalogF64 t_zero 1 true [0]) None;
          daq (WaitUntilTaskDone t_zero 10) None ])
  ++ [ daq (StopTask t_zero) None; daq (ClearTask t_zero) None ].

(** The stop flag reads true from the start of the run on: [stop] was
    called before the thread started. *)
Definition always_stopped (w : world) (self : DAQWorker) : Prop :=
  forall h, _stop_requested self || stop_set w h = true.

(** Nobody asks for a stop. *)
Definition never_stopped (w : world) (self : DAQWorker) : Prop :=
  _stop_requested self = false /\ forall h, stop_set w h = false.

(** The frame in which the [finally] block of [run] starts: the frame left
    by the [try] block, after the error signal if the block raised. *)
Definition after_generate (w : world) (self : DAQWorker) (fuel : nat)
    : state :=
  let out := generate w self fuel fresh in
  {| history := history out.2 ++ reported out.1;
     local_t := local_t out.2;
     local_t_zero := local_t_zero out.2 |}.

(** A frame of [run] in which [t] is not bound to a task. *)
Definition no_task_frame (s : state) : Prop :=
  well_framed s /\ local_t s <> Some (Some t_main).

(** From a frame without main task, [m] leaves a frame without main task
    and only appends events that satisfy [P]. *)
Definition emits_unbound {A} (P : event -> Prop) (m : M A) : Prop :=
  forall s, no_task_frame s ->
    no_task_frame (m s).2
    /\ exists evs, history (m s).2 = history s ++ evs /\ Forall P evs.

(** [m] does not raise. *)
Definition never_raises {A} (m : M A) : Prop :=
  forall s msg, (m s).1 <> Raise msg.

(** A main task that needs a few waits: each wait for the end of a task
    times out while fewer than 8 events have happened. *)
Definition slow_task : world :=
  {| DAQ_AVAILABLE := true;
     driver := fun h c =>
       match c with
       | WaitUntilTaskDone _ _ =>
           if (length h <? 8)%nat then Some "timeout"%string else None
       | _ => None
       end;
     stop_set := fun _ => false;
     has_WriteAnalogScalarF64 := false |}.

(** The buffers of a worker with valid parameters. *)
Definition cycle_buffer (self : DAQWorker) : list Q :=
  replicate (Z.to_nat (trigger_samples self)) 2
  ++ replicate (Z.to_nat (interval_samples self)) 0.

Definition finite_buffer (self : DAQWorker) : list Q :=
  replicate (Z.to_nat (initial_delay_samples self)) 0
  ++ repeat_array (cycle_buffer self) (Z.to_nat (nb_triggers self)).

(** The events of starting the main task on a buffer, when no driver call
    fails. *)
Definition main_started (self : DAQWorker) (mode : sample_mode)
    (data : list Q) : list event :=
  [ daq (Task t_main) None;
    daq (CreateAOVoltageChan t_main (device self)) None;
    daq (CfgSampClkTiming t_main (sampling_rate self) mode
           (Z.of_nat (length data))) None;
    daq (WriteAnalogF64 t_main (Z.of_nat (length data)) false data) None;
    daq (StartTask t_main) None ].

(** The events of a finite run in which no driver call fails, nobody asks
    for a stop, and the first wait finds the task done. *)
Definition finite_run_events (w : world) (self : DAQWorker) : list event :=
  main_started self DAQmx_Val_FiniteSamps (finite_buffer self)
  ++ [ started_emit;
       daq (WaitUntilTaskDone t_main 1) None;
       daq (StopTask t_main) None; daq (ClearTask t_main) None;
       daq (StopTask t_main) None; daq (ClearTask t_main) None;
       sleep (1 # 20) ]
  ++ zero_events (has_WriteAnalogScalarF64 w) (device self)
  ++ [ finished_emit ].

(** What a run may configure and write: on the delay task, a finite
    playback of [initial_delay_samples] samples at 0 V; on the main task,
    in infinite mode a continuous playback of the one-cycle buffer, and in
    finite mode a finite playback of the whole train; everything at the
    sampling rate of the worker and without auto-start. *)
Definition as_computed (self : DAQWorker) (e : event) : Prop :=
  match e with
  | daq (CfgSampClkTiming t_delay rate mode n) _ =>
      rate = sampling_rate self /\ mode = DAQmx_Val_FiniteSamps
      /\ n = initial_delay_samples self
  | daq (WriteAnalogF64 t_delay n auto data) _ =>
      n = initial_delay_samples self /\ auto = false
      /\ data = replicate (Z.to_nat (initial_delay_samples self)) 0
  | daq (CfgSampClkTiming t_main rate mode n) _ =>
      rate = sampling_rate self
      /\ if infinite self
         then mode = DAQmx_Val_ContSamps /\ n = samples_per_cycle self
         else mode = DAQmx_Val_FiniteSamps
              /\ n = Z.of_nat (length (finite_buffer self))
  | daq (WriteAnalogF64 t_main n auto data) _ =>
      auto = false
      /\ if infinite self
         then n = samples_per_cycle self /\ data = cycle_buffer self
         else n = Z.of_nat (length (finite_buffer self))
              /\ data = finite_buffer self
  | _ => True
  end.

(** From a frame that satisfies [Pre], when [m] returns normally its value
    and the frame it leaves satisfy [Post]. *)
Definition on_return {A} (Pre : state -> Prop) (m : M A)
    (Post : A -> state -> Prop) : Prop :=
  forall s, Pre s -> forall a, (m s).1 = Ret a -> Post a (m s).2.

(** [t] is bound to the main task. *)
Definition t_bound (s : state) : Prop := local_t s = Some (Some t_main).

(* ===================================================================== *)
(** * Properties *)
(* ===================================================================== *)

Example build_channel_path_default :
  build_channel_path (lit "  ") (lit "") = lit "Dev2/ao0".
Proof. reflexivity. Qed.

Example build_channel_path_strips :
  build_channel_path (lit " Dev1 ") (lit "ao1") = lit "Dev1/ao1".
Proof. reflexivity. Qed.

(* --------------------------------------------------------------------- *)
(** ** Text: [strip] and [build_channel_path] *)
(* --------------------------------------------------------------------- *)

Lemma lstrip_nil_iff (s : pystr) : lstrip s = [] <-> forallb isspace s = true.
Proof.
  induction s as [|c s IH]; simpl; [tauto|].
  destruct (isspace c); simpl; [exact IH|]. split; discriminate.
Qed.

Lemma forallb_isspace_lstrip (s : pystr) :
  forallb isspace (lstrip s) = forallb isspace s.
Proof.
  induction s as [|c s IH]; simpl; [reflexivity|].
  destruct (isspace c) eqn:E; simpl; [exact IH|]. now rewrite E.
Qed.

Lemma forallb_rev {A} (f : A -> bool) (l : list A) :
  forallb f (rev l) = forallb f l.
Proof.
  induction l as [|a l IH]; simpl; [reflexivity|].
  rewrite forallb_app, IH. simpl. rewrite andb_true_r. apply andb_comm.
Qed.

Lemma strip_nil_iff (s : pystr) : strip s = [] <-> forallb isspace s = true.
Proof.
  unfold strip, rstrip.
  rewrite <- (forallb_isspace_lstrip s), <- (forallb_rev isspace (lstrip s)).
  rewrite <- lstrip_nil_iff. split; intros H.
  - apply (f_equal (@rev _)) in H. now rewrite rev_involutive in H.
  - now rewrite H.
Qed.

Lemma truthy_strip (s : pystr) : truthy (strip s) = negb (forallb isspace s).
Proof.
  destruct (forallb isspace s) eqn:E.
  - apply strip_nil_iff in E. now rewrite E.
  - destruct (strip s) eqn:E'; [|reflexivity].
    apply strip_nil_iff in E'. congruence.
Qed.

Lemma count_app (c : codepoint) (a b : pystr) :
  count c (a ++ b) = (count c a + count c b)%nat.
Proof. induction a as [|x a IH]; simpl; [reflexivity | rewrite IH; lia]. Qed.

Lemma or_nonempty (a b : pystr) : b <> [] -> or_ a b <> [].
Proof. unfold or_. destruct a; simpl; [tauto | discriminate]. Qed.

(** C10, as amended: for every pair of input strings the result is the
    stripped device (or "Dev2" when the device is empty or only white
    space), a "/", and the stripped channel (or "ao0" likewise); both parts
    are non-empty, so the device-only branch is never taken; and the number
    of "/" in the result is one more than the number of "/" in the two
    stripped inputs. *)
Theorem build_channel_path_shape (device_str channel_str : pystr) :
  build_channel_path device_str channel_str
    = device_part device_str ++ lit "/" ++ channel_part channel_str
  /\ device_part device_str <> []
  /\ channel_part channel_str <> []
  /\ count slash (build_channel_path device_str channel_str)
     = (count slash (strip device_str) + 1
        + count slash (strip channel_str))%nat.
Proof.
  assert (Hd : or_ (strip device_str) (lit "Dev2") = device_part device_str).
  { unfold or_, device_part. rewrite truthy_strip.
    now destruct (forallb isspace device_str). }
  assert (Hc : or_ (strip channel_str) (lit "ao0") = channel_part channel_str).
  { unfold or_, channel_part. rewrite truthy_strip.
    now destruct (forallb isspace channel_str). }
  assert (Hdn : device_part device_str <> []).
  { rewrite <- Hd. now apply or_nonempty. }
  assert (Hcn : channel_part channel_str <> []).
  { rewrite <- Hc. now apply or_nonempty. }
  assert (Hb : build_channel_path device_str channel_str
               = device_part device_str ++ lit "/" ++ channel_part channel_str).
  { unfold build_channel_path. rewrite Hd, Hc.
    destruct (channel_part channel_str); [contradiction | reflexivity]. }
  repeat split; try assumption.
  rewrite Hb, !count_app.
  assert (Hcd : count slash (device_part device_str)
                = count slash (strip device_str)).
  { unfold device_part. destruct (forallb isspace device_str) eqn:E;
      [|reflexivity]. apply strip_nil_iff in E. now rewrite E. }
  assert (Hcc : count slash (channel_part channel_str)
                = count slash (strip channel_str)).
  { unfold channel_part. destruct (forallb isspace channel_str) eqn:E;
      [|reflexivity]. apply strip_nil_iff in E. now rewrite E. }
  rewrite Hcd, Hcc. change (count slash (lit "/")) with 1%nat. lia.
Qed.

(** C10, as stated, fails: a device that contains a "/" gives a path with
    two of them. *)
Lemma build_channel_path_two_slashes :
  build_channel_path (lit "Dev1/x") (lit "ao0") = lit "Dev1/x/ao0"
  /\ count slash (build_channel_path (lit "Dev1/x") (lit "ao0")) <> 1%nat.
Proof. split; [reflexivity | vm_compute; discriminate]. Qed.

(* --------------------------------------------------------------------- *)
(** ** Sample counts *)
(* --------------------------------------------------------------------- *)

Lemma int_nonneg (x : Q) : 0 <= x -> int x = Qfloor x.
Proof.
  destruct x as [n d]. unfold Qle, int, Qfloor. simpl. intros H.
  apply Z.quot_div_nonneg; lia.
Qed.

Lemma int_nonpos (x : Q) : x <= 0 -> int x = Qceiling x.
Proof.
  destruct x as [n d]. unfold Qle, int, Qceiling, Qfloor. simpl. intros H.
  rewrite <- (Z.opp_involutive n) at 1.
  rewrite Z.quot_opp_l by lia. f_equal.
  apply Z.quot_div_nonneg; lia.
Qed.

Lemma int_ge_0 (x : Q) : 0 <= x -> (0 <= int x)%Z.
Proof.
  intros H. rewrite int_nonneg by assumption.
  change 0%Z with (Qfloor 0). now apply Qfloor_resp_le.
Qed.

Lemma int_toward_zero (x : Q) : int x = toward_zero x.
Proof.
  unfold toward_zero. destruct (Qle_bool 0 x) eqn:E.
  - apply int_nonneg. now apply Qle_bool_iff.
  - apply int_nonpos. apply Qlt_le_weak, Qnot_le_lt. intros H.
    apply Qle_bool_iff in H. congruence.
Qed.



(* --------------------------------------------------------------------- *)
(** ** Buffers *)
(* --------------------------------------------------------------------- *)

Lemma valid_counts (self : DAQWorker) :
  valid self ->
  (0 <= trigger_samples self)%Z /\ (0 <= interval_samples self)%Z
  /\ (0 <= initial_delay_samples self)%Z.
Proof.
  intros (Hr & Ht & Hi & Hd & _).
  unfold trigger_samples, interval_samples, initial_delay_samples.
  repeat split; apply int_ge_0; apply Qmult_le_0_compat; lra.
Qed.

Lemma Sig_cycle_valid (self : DAQWorker) :
  valid self ->
  Sig_cycle self
  = Val (replicate (Z.to_nat (trigger_samples self)) 2
         ++ replicate (Z.to_nat (interval_samples self)) 0).
Proof.
  intros Hv. destruct (valid_counts self Hv) as (Ht & Hi & _).
  unfold Sig_cycle, np_zeros, samples_per_cycle.
  destruct (Z.ltb_spec (trigger_samples self + interval_samples self) 0);
    [lia|].
  unfold set_prefix, slice_stop. rewrite length_replicate.
  destruct (Z.ltb_spec (trigger_samples self) 0); [lia|].
  replace (Nat.min (Z.to_nat (trigger_samples self))
             (Z.to_nat (trigger_samples self + interval_samples self)))
    with (Z.to_nat (trigger_samples self)) by lia.
  rewrite drop_replicate. do 3 f_equal. lia.
Qed.

(** C6: for valid parameters the one-cycle buffer is built without error,
    has [samples_per_cycle] samples, and holds 2 V on the first
    [trigger_samples] samples and 0 V on every later one. *)
Theorem Sig_cycle_two_level (self : DAQWorker) :
  valid self ->
  exists cycle : list Q,
    Sig_cycle self = Val cycle
    /\ Z.of_nat (length cycle) = samples_per_cycle self
    /\ (forall i : nat,
          (Z.of_nat i < trigger_samples self)%Z -> cycle !! i = Some 2)
    /\ (forall i : nat,
          (trigger_samples self <= Z.of_nat i < samples_per_cycle self)%Z ->
          cycle !! i = Some 0).
Proof.
  intros Hv. destruct (valid_counts self Hv) as (Ht & Hi & _).
  eexists. split; [apply Sig_cycle_valid; assumption|].
  unfold samples_per_cycle. split; [|split].
  - rewrite length_app, !length_replicate. lia.
  - intros i Hlt. rewrite lookup_app_l by (rewrite length_replicate; lia).
    apply lookup_replicate_2. lia.
  - intros i Hin. rewrite lookup_app_r by (rewrite length_replicate; lia).
    rewrite length_replicate. apply lookup_replicate_2. lia.
Qed.

Lemma Sig_cycle_two_level_witness :
  exists cycle : list Q,
    Sig_cycle short_trigger = Val cycle
    /\ Z.of_nat (length cycle) = samples_per_cycle short_trigger
    /\ (forall i : nat,
          (Z.of_nat i < trigger_samples short_trigger)%Z ->
          cycle !! i = Some 2)
    /\ (forall i : nat,
          (trigger_samples short_trigger <= Z.of_nat i
           < samples_per_cycle short_trigger)%Z ->
          cycle !! i = Some 0).
Proof.
  apply (Sig_cycle_two_level short_trigger).
  unfold valid, short_trigger; simpl. repeat split; try lra; lia.
Defined.

Lemma repeat_array_length (a : list Q) (n : nat) :
  length (repeat_array a n) = (n * length a)%nat.
Proof. induction n as [|n IH]; simpl; [|rewrite length_app, IH]; lia. Qed.

Lemma repeat_array_nil (n : nat) : repeat_array [] n = [].
Proof. induction n as [|n IH]; simpl; auto. Qed.

Lemma np_tile_nonneg (a : list Q) (reps : Z) :
  (0 <= reps)%Z -> np_tile a reps = Val (repeat_array a (Z.to_nat reps)).
Proof.
  intros H. unfold np_tile. destruct a as [|x a].
  - now rewrite repeat_array_nil.
  - destruct (Z.ltb_spec reps 0); [lia | reflexivity].
Qed.



Example short_train_data :
  forall cycle, Sig_cycle short_train = Val cycle ->
  finite_data short_train cycle
  = Val [0; 2; 2; 0; 0; 0; 2; 2; 0; 0; 0; 2; 2; 0; 0; 0].
Proof. intros cycle H. vm_compute in H. injection H as <-. reflexivity. Qed.

(* --------------------------------------------------------------------- *)
(** ** Stop requests *)
(* --------------------------------------------------------------------- *)



(* --------------------------------------------------------------------- *)
(** ** The phase shown by the state indicator *)
(* --------------------------------------------------------------------- *)

Lemma Qlt_b_iff (a b : Q) : Qlt_b a b = true <-> a < b.
Proof.
  unfold Qlt_b. rewrite negb_true_iff. split.
  - intros H. apply Qnot_le_lt. intros Hle.
    apply Qle_bool_iff in Hle. congruence.
  - intros H. destruct (Qle_bool b a) eqn:E; [|reflexivity].
    apply Qle_bool_iff in E. lra.
Qed.

Lemma Qlt_b_false_iff (a b : Q) : Qlt_b a b = false <-> b <= a.
Proof.
  unfold Qlt_b. rewrite negb_false_iff. apply Qle_bool_iff.
Qed.

Lemma Qlt_b_comp (a a' b b' : Q) :
  a == a' -> b == b' -> Qlt_b a b = Qlt_b a' b'.
Proof. intros Ha Hb. unfold Qlt_b. now rewrite Ha, Hb. Qed.

Lemma Qfloor_unique (x : Q) (m : Z) :
  inject_Z m <= x -> x < inject_Z (m + 1) -> Qfloor x = m.
Proof.
  intros Hlo Hhi.
  pose proof (Qfloor_le x) as Hf. pose proof (Qlt_floor x) as Hf'.
  assert (H1 : (Qfloor x < m + 1)%Z).
  { rewrite Zlt_Qlt. eapply Qle_lt_trans; eassumption. }
  assert (H2 : (m < Qfloor x + 1)%Z).
  { rewrite Zlt_Qlt. eapply Qle_lt_trans; eassumption. }
  lia.
Qed.

Lemma Qfloor_plus_Z (x : Q) (k : Z) : Qfloor (x + inject_Z k) = (Qfloor x + k)%Z.
Proof.
  pose proof (Qfloor_le x) as Hf. pose proof (Qlt_floor x) as Hf'.
  apply Qfloor_unique.
  - rewrite inject_Z_plus. lra.
  - rewrite !inject_Z_plus in *. lra.
Qed.

Lemma fmod_comp (a a' b : Q) :
  a == a' -> same_remaining (fmod a b) (fmod a' b).
Proof.
  intros Ha. unfold fmod. destruct (Qeq_bool b 0); cbv [same_remaining];
    [exact I|].
  assert (Hf : Qfloor (a / b) = Qfloor (a' / b)) by now rewrite Ha.
  rewrite Hf, Ha. reflexivity.
Qed.

Lemma fmod_period (a b : Q) (k : Z) :
  same_remaining (fmod (a + inject_Z k * b) b) (fmod a b).
Proof.
  unfold fmod. destruct (Qeq_bool b 0) eqn:E; cbv [same_remaining];
    [exact I|].
  apply Qeq_bool_neq in E.
  assert (Hd : (a + inject_Z k * b) / b == a / b + inject_Z k)
    by (field; assumption).
  assert (Hf : Qfloor ((a + inject_Z k * b) / b) = (Qfloor (a / b) + k)%Z).
  { rewrite Hd. apply Qfloor_plus_Z. }
  rewrite Hf, inject_Z_plus. ring.
Qed.

Lemma same_remaining_trans (a b c : option Q) :
  same_remaining a b -> same_remaining b c -> same_remaining a c.
Proof.
  destruct a, b, c; simpl; try tauto. intros H1 H2. now rewrite H1.
Qed.

Lemma same_indication_phase (p : worker_params) (e e' : Q) :
  same_indication (state_indicator p e) (state_indicator p e') ->
  phase_at p e = phase_at p e'.
Proof.
  unfold phase_at.
  destruct (state_indicator p e), (state_indicator p e'); simpl;
    try tauto. now intros [-> _].
Qed.

(** The part of [state_indicator] that follows the position in the
    cycle respects equality of rationals. *)
Lemma in_cycle_comp (trigger cycle_duration : Q) (pos pos' : option Q) :
  same_remaining pos pos' ->
  same_indication
    match pos with
    | None => ZeroDivisionError
    | Some x =>
        if Qlt_b x trigger then Shown Active (Some (trigger - x))
        else Shown Interval (Some (cycle_duration - x))
    end
    match pos' with
    | None => ZeroDivisionError
    | Some x =>
        if Qlt_b x trigger then Shown Active (Some (trigger - x))
        else Shown Interval (Some (cycle_duration - x))
    end.
Proof.
  destruct pos as [x|], pos' as [y|]; simpl; try tauto. intros H.
  rewrite (Qlt_b_comp x y trigger trigger H (Qeq_refl _)).
  destruct (Qlt_b y trigger); simpl; split; try reflexivity; now rewrite H.
Qed.

Lemma state_indicator_comp (p : worker_params) (e e' : Q) :
  e == e' -> same_indication (state_indicator p e) (state_indicator p e').
Proof.
  intros He. unfold state_indicator.
  rewrite (Qlt_b_comp e e' _ _ He (Qeq_refl _)).
  destruct (Qlt_b e' (p_initial_trigger_delay p)).
  { simpl. split; [reflexivity|]. now rewrite He. }
  assert (Hc : e - p_initial_trigger_delay p == e' - p_initial_trigger_delay p)
    by now rewrite He.
  destruct (p_infinite p).
  { apply in_cycle_comp, fmod_comp, Hc. }
  rewrite Hc.
  destruct (Qle_bool _ (e' - p_initial_trigger_delay p)); [simpl; tauto|].
  apply in_cycle_comp, fmod_comp, Hc.
Qed.



Example three_triggers_phases :
  phase_at three_triggers 0 = Some Active
  /\ phase_at three_triggers (39 # 100) = Some Active
  /\ phase_at three_triggers (59 # 100) = Some Active
  /\ phase_at three_triggers (6 # 10) = Some Done
  /\ phase_at three_triggers 100 = Some Done.
Proof. repeat split. Qed.

Example default_params_phases :
  same_indication (state_indicator default_params (51 # 10))
                  (Shown Active (Some (1 # 10)))
  /\ same_indication (state_indicator default_params (2505 # 100))
                     (Shown Interval (Some (15 # 100)))
  /\ same_indication (state_indicator default_params 1)
                     (Shown InitialDelay (Some 4)).
Proof. repeat split. Qed.



(* --------------------------------------------------------------------- *)
(** ** Saved and loaded parameters *)
(* --------------------------------------------------------------------- *)

Lemma get_missing (data : gmap string json) (key : string) (d : json) :
  data !! key = None -> get data key d = d.
Proof. unfold get. now intros ->. Qed.

Lemma get_insert_ne (data : gmap string json) (k key : string) (v d : json) :
  k <> key -> get (<[k:=v]> data) key d = get data key d.
Proof. intros H. unfold get. now rewrite lookup_insert_ne. Qed.




Example old_file_loaded :
  load_params_from_json old_file
  = {| device_edit := JStr (lit "Dev2");
       channel_edit := JStr (lit "ao0");
       sampling_rate_spin := JInt 1000;
       trigger_duration_spin := JFloat (1 # 2);
       inter_trigger_spin := JInt 20;
       initial_trigger_delay_spin := JInt 5;
       infinite_check := JBool false;
       nb_triggers_spin := JInt 5 |}.
Proof. reflexivity. Qed.

(* --------------------------------------------------------------------- *)
(** ** Rules for the computations of [run] *)
(* --------------------------------------------------------------------- *)

Section Rules.
Context {w : world} {self : DAQWorker}.
Variable P : event -> Prop.

Lemma emits_silent {A} (m : M A) :
  (forall s, history (m s).2 = history s
             /\ local_t (m s).2 = local_t s
             /\ local_t_zero (m s).2 = local_t_zero s) ->
  emits P m.
Proof.
  intros H s [Ht Hz]. destruct (H s) as (Hh & Ht' & Hz').
  split; [split; congruence|].
  exists []. rewrite app_nil_r. auto.
Qed.

Lemma emits_ret {A} (a : A) : emits P (ret a).
Proof. apply emits_silent. intros s. auto. Qed.

Lemma emits_lift {A} (x : exn A) : emits P (lift x).
Proof. apply emits_silent. intros s. destruct x; auto. Qed.

Lemma emits_out_of_fuel {A} : emits P (@out_of_fuel A).
Proof. apply emits_silent. intros s. auto. Qed.

Lemma emits_stop_requested : emits P (stop_requested w self).
Proof. apply emits_silent. intros s. auto. Qed.

Lemma emits_assign_t_None : emits P (assign_t None).
Proof.
  intros s [Ht Hz]. split; [split; simpl; auto|].
  exists []. simpl. rewrite app_nil_r. auto.
Qed.

Lemma emits_assign_t_main : emits P (assign_t (Some t_main)).
Proof.
  intros s [Ht Hz]. split; [split; simpl; auto|].
  exists []. simpl. rewrite app_nil_r. auto.
Qed.

Lemma emits_assign_t_zero_None : emits P (assign_t_zero None).
Proof.
  intros s [Ht Hz]. split; [split; simpl; auto|].
  exists []. simpl. rewrite app_nil_r. auto.
Qed.

Lemma emits_assign_t_zero : emits P (assign_t_zero (Some t_zero)).
Proof.
  intros s [Ht Hz]. split; [split; simpl; auto|].
  exists []. simpl. rewrite app_nil_r. auto.
Qed.

Lemma emits_log (e : event) : P e -> emits P (log e).
Proof.
  intros He s Hs. split; [exact Hs|].
  exists [e]. simpl. auto.
Qed.

Lemma emits_call (c : daq_call) :
  (forall r, P (daq c r)) -> emits P (call w c).
Proof.
  intros Hc s Hs. unfold call.
  destruct (driver w (history s) c) as [msg|]; simpl;
    (split; [exact Hs|]); eexists; split; eauto.
Qed.

Lemma emits_bind {A B} (m : M A) (k : A -> M B) :
  emits P m -> (forall a, emits P (k a)) -> emits P (bind m k).
Proof.
  intros Hm Hk s Hs. unfold bind.
  destruct (Hm s Hs) as (Hwf & evs & Hh & HP).
  destruct (m s) as [[a|msg|] s']; simpl in *; eauto.
  destruct (Hk a s' Hwf) as (Hwf' & evs' & Hh' & HP').
  split; [exact Hwf'|]. exists (evs ++ evs').
  rewrite Hh', Hh, app_assoc. split; [reflexivity|].
  apply Forall_app; auto.
Qed.

Lemma emits_bind_read_t {B} (k : option (option task) -> M B) :
  (forall t, t = None \/ t = Some None \/ t = Some (Some t_main) ->
             emits P (k t)) ->
  emits P (bind read_t k).
Proof.
  intros Hk s Hs. unfold bind, read_t. apply Hk; [apply Hs | exact Hs].
Qed.

Lemma emits_bind_read_t_zero {B} (k : option task -> M B) :
  (forall t, t = None \/ t = Some t_zero -> emits P (k t)) ->
  emits P (bind read_t_zero k).
Proof.
  intros Hk s Hs. unfold bind, read_t_zero. apply Hk; [apply Hs | exact Hs].
Qed.

Lemma emits_try_except {A} (m : M A) (h : string -> M A) :
  emits P m -> (forall msg, emits P (h msg)) -> emits P (try_except m h).
Proof.
  intros Hm Hh s Hs. unfold try_except.
  destruct (Hm s Hs) as (Hwf & evs & He & HP).
  destruct (m s) as [[a|msg|] s']; simpl in *; eauto.
  destruct (Hh msg s' Hwf) as (Hwf' & evs' & He' & HP').
  split; [exact Hwf'|]. exists (evs ++ evs').
  rewrite He', He, app_assoc. split; [reflexivity|].
  apply Forall_app; auto.
Qed.

Lemma emits_try_finally {A} (m : M A) (f : M unit) :
  emits P m -> emits P f -> emits P (try_finally m f).
Proof.
  intros Hm Hf s Hs. unfold try_finally.
  destruct (Hm s Hs) as (Hwf & evs & He & HP).
  destruct (m s) as [r s']; simpl in *.
  destruct (Hf s' Hwf) as (Hwf' & evs' & He' & HP').
  assert (Hall : well_framed (f s').2
                 /\ exists evs0, history (f s').2 = history s ++ evs0
                                 /\ Forall P evs0).
  { split; [exact Hwf'|]. exists (evs ++ evs').
    rewrite He', He, app_assoc. split; [reflexivity|].
    apply Forall_app; auto. }
  destruct r as [a|msg|]; [| |simpl; eauto];
    destruct (f s') as [[u|msg'|] s'']; simpl in *; exact Hall.
Qed.

Lemma emits_wait_done (fuel : nat) (h : task) (timeout : Q) (elapsed : Z) :
  (forall r, P (daq (WaitUntilTaskDone h 1) r)) ->
  emits P (wait_done w self fuel h timeout elapsed).
Proof.
  intros Hc. revert elapsed.
  induction fuel as [|fuel IH]; intros elapsed; simpl.
  { apply emits_out_of_fuel. }
  apply emits_bind; [apply emits_stop_requested|]. intros stopped.
  destruct (negb stopped && Qlt_b (inject_Z elapsed) timeout);
    [|apply emits_ret].
  apply emits_bind.
  - apply emits_try_except; [|intros; apply emits_ret].
    apply emits_bind; [now apply emits_call | intros; apply emits_ret].
  - intros [|]; [apply emits_ret | apply IH].
Qed.

Lemma emits_poll_stop (fuel : nat) :
  P (sleep (1 # 10)) -> emits P (poll_stop w self fuel).
Proof.
  intros Hs. induction fuel as [|fuel IH]; simpl.
  { apply emits_out_of_fuel. }
  apply emits_bind; [apply emits_stop_requested|]. intros [|].
  - apply emits_ret.
  - apply emits_bind; [now apply emits_log | intros; exact IH].
Qed.

End Rules.

Ltac emits_step :=
  lazymatch goal with
  | |- emits _ (bind read_t _) =>
      apply emits_bind_read_t; intros ? [->|[->| ->]]
  | |- emits _ (bind read_t_zero _) =>
      apply emits_bind_read_t_zero; intros ? [->| ->]
  | |- emits _ (bind _ _) => apply emits_bind; [|intros ?]
  | |- emits _ (try_except _ _) => apply emits_try_except; [|intros ?]
  | |- emits _ (try_finally _ _) => apply emits_try_finally
  | |- emits _ (ret _) => apply emits_ret
  | |- emits _ (lift _) => apply emits_lift
  | |- emits _ (log _) => apply emits_log; reflexivity
  | |- emits _ (call _ _) => apply emits_call; intros ?; reflexivity
  | |- emits _ (stop_requested _ _) => apply emits_stop_requested
  | |- emits _ (assign_t None) => apply emits_assign_t_None
  | |- emits _ (assign_t (Some t_main)) => apply emits_assign_t_main
  | |- emits _ (assign_t_zero None) => apply emits_assign_t_zero_None
  | |- emits _ (assign_t_zero (Some t_zero)) => apply emits_assign_t_zero
  | |- emits _ (wait_done _ _ _ _ _ _) =>
      apply emits_wait_done; intros ?; reflexivity
  | |- emits _ (poll_stop _ _ _) => apply emits_poll_stop; reflexivity
  | |- emits _ (start_main _ _ _ _ _) => unfold start_main
  | |- emits _ (if ?b then _ else _) => destruct b
  | |- emits _ (match ?x with _ => _ end) => destruct x
  end.

Section Shape.
Variable w : world.
Variable self : DAQWorker.

(** With the driver at hand, the [try] block emits only events of the
    generation: no terminal signal, no settle delay, nothing on the
    zero task. *)
Lemma generate_emits (fuel : nat) :
  DAQ_AVAILABLE w = true ->
  emits (fun e => generating e = true) (generate w self fuel).
Proof.
  intros Hav. unfold generate. rewrite Hav. cbv zeta. simpl negb. cbv iota.
  repeat emits_step.
Qed.

Lemma release_t_emits :
  emits (fun e => releases_t e = true) (release_t w).
Proof. unfold release_t. repeat emits_step. Qed.

Lemma write_zero_emits :
  emits (fun e => uses_t_zero e = true) (write_zero w self).
Proof. unfold write_zero. repeat emits_step. Qed.

Lemma release_t_zero_emits :
  emits (fun e => uses_t_zero e = true) (release_t_zero w).
Proof. unfold release_t_zero. repeat emits_step. Qed.

End Shape.

(* --------------------------------------------------------------------- *)
(** ** Outcomes: fuel and exceptions *)
(* --------------------------------------------------------------------- *)

Section Outcomes.
Context {w : world} {self : DAQWorker}.

Lemma halts_ret {A} (a : A) : halts (ret a).
Proof. intros s. discriminate. Qed.

Lemma halts_lift {A} (x : exn A) : halts (lift x).
Proof. intros s. destruct x; discriminate. Qed.

Lemma halts_log (e : event) : halts (log e).
Proof. intros s. discriminate. Qed.

Lemma halts_assign_t (v : option task) : halts (assign_t v).
Proof. intros s. discriminate. Qed.

Lemma halts_assign_t_zero (v : option task) : halts (assign_t_zero v).
Proof. intros s. discriminate. Qed.

Lemma halts_read_t : halts read_t.
Proof. intros s. discriminate. Qed.

Lemma halts_read_t_zero : halts read_t_zero.
Proof. intros s. discriminate. Qed.

Lemma halts_stop_requested : halts (stop_requested w self).
Proof. intros s. discriminate. Qed.

Lemma halts_call (c : daq_call) : halts (call w c).
Proof.
  intros s. unfold call.
  destruct (driver w (history s) c); discriminate.
Qed.

Lemma halts_bind {A B} (m : M A) (k : A -> M B) :
  halts m -> (forall a, halts (k a)) -> halts (bind m k).
Proof.
  intros Hm Hk s. unfold bind. specialize (Hm s).
  destruct (m s) as [[a|msg|] s']; simpl in *;
    [apply Hk | discriminate | congruence].
Qed.

Lemma halts_try_except {A} (m : M A) (h : string -> M A) :
  halts m -> (forall msg, halts (h msg)) -> halts (try_except m h).
Proof.
  intros Hm Hh s. unfold try_except. specialize (Hm s).
  destruct (m s) as [[a|msg|] s']; simpl in *;
    [discriminate | apply Hh | congruence].
Qed.

Lemma halts_try_finally {A} (m : M A) (f : M unit) :
  halts m -> halts f -> halts (try_finally m f).
Proof.
  intros Hm Hf s. unfold try_finally. specialize (Hm s).
  destruct (m s) as [[a|msg|] s']; simpl in *; [| |congruence];
    specialize (Hf s'); destruct (f s') as [[u|msg'|] s'']; simpl in *;
    congruence.
Qed.

Lemma returns_ret {A} (a : A) : returns (ret a).
Proof. intros s. eauto. Qed.

Lemma returns_log (e : event) : returns (log e).
Proof. intros s. eexists. reflexivity. Qed.

Lemma returns_assign_t_zero (v : option task) : returns (assign_t_zero v).
Proof. intros s. eexists. reflexivity. Qed.

Lemma returns_read_t : returns read_t.
Proof. intros s. eexists. reflexivity. Qed.

Lemma returns_read_t_zero : returns read_t_zero.
Proof. intros s. eexists. reflexivity. Qed.

Lemma returns_bind {A B} (m : M A) (k : A -> M B) :
  returns m -> (forall a, returns (k a)) -> returns (bind m k).
Proof.
  intros Hm Hk s. unfold bind. destruct (Hm s) as [a Ha].
  destruct (m s) as [r s']; simpl in *. subst r. apply Hk.
Qed.

(** A handler that returns turns every halting block into one that
    returns. *)
Lemma returns_try_except {A} (m : M A) (h : string -> M A) :
  halts m -> (forall msg, returns (h msg)) -> returns (try_except m h).
Proof.
  intros Hm Hh s. unfold try_except. specialize (Hm s).
  destruct (m s) as [[a|msg|] s']; simpl in *;
    [eauto | apply Hh | congruence].
Qed.

Lemma returns_try_finally {A} (m : M A) (f : M unit) :
  returns m -> returns f -> returns (try_finally m f).
Proof.
  intros Hm Hf s. unfold try_finally. destruct (Hm s) as [a Ha].
  destruct (m s) as [r s']; simpl in *. subst r.
  destruct (Hf s') as [u Hu].
  destruct (f s') as [r' s'']; simpl in *. subst r'. eauto.
Qed.

(** The bounded loop stops by itself: [elapsed] grows by one at each
    turn and the loop ends when it reaches [timeout]. *)
Lemma halts_wait_done (fuel : nat) (h : task) (timeout : Q) (elapsed : Z) :
  (0 < fuel)%nat ->
  (Qceiling timeout - elapsed < Z.of_nat fuel)%Z ->
  halts (wait_done w self fuel h timeout elapsed).
Proof.
  revert elapsed. induction fuel as [|fuel IH]; intros elapsed Hpos Hlt;
    [lia|]. simpl.
  apply halts_bind; [apply halts_stop_requested|]. intros stopped.
  destruct (negb stopped && Qlt_b (inject_Z elapsed) timeout) eqn:E;
    [|apply halts_ret].
  apply andb_true_iff in E as [_ E]. apply Qlt_b_iff in E.
  assert (Hc : (elapsed < Qceiling timeout)%Z).
  { rewrite Zlt_Qlt. eapply Qlt_le_trans; [exact E|]. apply Qle_ceiling. }
  apply halts_bind.
  - apply halts_try_except; [|intros; apply halts_ret].
    apply halts_bind; [apply halts_call | intros; apply halts_ret].
  - intros [|]; [apply halts_ret|]. apply IH; lia.
Qed.

(** The unbounded loop stops when the flag was set before the run. *)
Lemma halts_poll_stop_preset (fuel : nat) :
  (0 < fuel)%nat -> _stop_requested self = true ->
  halts (poll_stop w self fuel).
Proof.
  intros Hpos Hset s. destruct fuel as [|fuel]; [lia|].
  simpl. unfold bind, stop_requested. rewrite Hset. discriminate.
Qed.

(** The unbounded loop stops when the flag is set after [n] events. *)
Lemma poll_stop_halts_at (n fuel : nat) (s : state) :
  (forall h, (n <= length h)%nat -> stop_set w h = true) ->
  (0 < fuel)%nat -> (n < fuel + length (history s))%nat ->
  (poll_stop w self fuel s).1 <> OutOfFuel.
Proof.
  intros Hn. revert s. induction fuel as [|fuel IH]; intros s Hpos Hlt;
    [lia|]. simpl. unfold bind at 1, stop_requested.
  destruct (_stop_requested self || stop_set w (history s)) eqn:E;
    [discriminate|].
  apply orb_false_iff in E as [_ E].
  assert (Hlen : (length (history s) < n)%nat).
  { destruct (Nat.le_gt_cases n (length (history s))) as [Hle|Hgt];
      [|exact Hgt]. rewrite (Hn _ Hle) in E. discriminate. }
  unfold bind, log. apply IH; [lia|].
  simpl. rewrite length_app. simpl. lia.
Qed.

Lemma halts_poll_stop (n fuel : nat) :
  (forall h, (n <= length h)%nat -> stop_set w h = true) ->
  (n < fuel)%nat -> halts (poll_stop w self fuel).
Proof. intros Hn Hlt s. apply (poll_stop_halts_at n); [exact Hn|lia..]. Qed.

End Outcomes.

Ltac halts_step :=
  lazymatch goal with
  | |- halts (bind _ _) => apply halts_bind; [|intros ?]
  | |- halts (try_except _ _) => apply halts_try_except; [|intros ?]
  | |- halts (try_finally _ _) => apply halts_try_finally
  | |- halts (ret _) => apply halts_ret
  | |- halts (lift _) => apply halts_lift
  | |- halts (log _) => apply halts_log
  | |- halts (call _ _) => apply halts_call
  | |- halts (stop_requested _ _) => apply halts_stop_requested
  | |- halts (assign_t _) => apply halts_assign_t
  | |- halts (assign_t_zero _) => apply halts_assign_t_zero
  | |- halts read_t => apply halts_read_t
  | |- halts read_t_zero => apply halts_read_t_zero
  | |- halts (start_main _ _ _ _ _) => unfold start_main
  | |- halts (if true then _ else _) => cbv beta iota
  | |- halts (if false then _ else _) => cbv beta iota
  | |- halts (if ?b then _ else _) => destruct b eqn:?
  | |- halts (match ?x with _ => _ end) => destruct x
  end.

Ltac returns_step :=
  lazymatch goal with
  | |- returns (bind _ _) => apply returns_bind; [|intros ?]
  | |- returns (try_except _ _) =>
      apply returns_try_except; [repeat halts_step|intros ?]
  | |- returns (try_finally _ _) => apply returns_try_finally
  | |- returns (ret _) => apply returns_ret
  | |- returns (log _) => apply returns_log
  | |- returns (assign_t_zero _) => apply returns_assign_t_zero
  | |- returns read_t => apply returns_read_t
  | |- returns read_t_zero => apply returns_read_t_zero
  | |- returns (match ?x with _ => _ end) => destruct x
  end.

Section Shutdown.
Variable w : world.
Variable self : DAQWorker.

Lemma write_zero_halts : halts (write_zero w self).
Proof. unfold write_zero. repeat halts_step. Qed.

Lemma release_t_returns : returns (release_t w).
Proof. unfold release_t. repeat returns_step. Qed.

Lemma release_t_zero_returns : returns (release_t_zero w).
Proof. unfold release_t_zero. repeat returns_step. Qed.

(** Fuel enough for the loops makes the [try] block halt. *)
Lemma generate_halts (fuel n : nat) :
  infinite self = false \/ _stop_requested self = true
  \/ (forall h, (n <= length h)%nat -> stop_set w h = true) ->
  (enough_fuel self n <= fuel)%nat ->
  halts (generate w self fuel).
Proof.
  intros Hstop Hfuel. unfold enough_fuel in Hfuel.
  assert (Hd : (Qceiling (initial_trigger_delay self + 5) - 0
                < Z.of_nat fuel)%Z) by lia.
  assert (Hf : (Qceiling (finite_timeout self) - 0 < Z.of_nat fuel)%Z)
    by lia.
  assert (Hpos : (0 < fuel)%nat) by lia.
  assert (Hpoll : infinite self = true -> halts (poll_stop w self fuel)).
  { intros Hinf. destruct Hstop as [H|[H|H]]; [congruence| |].
    - now apply halts_poll_stop_preset.
    - apply (halts_poll_stop n); [exact H | lia]. }
  unfold generate. cbv zeta.
  destruct (infinite self) eqn:Hinf;
    repeat first
      [ halts_step
      | apply halts_wait_done; assumption
      | apply Hpoll; reflexivity ].
Qed.

(** The forcing of the output: it returns, its first event is the
    creation of the zero task and the rest are calls on that task. *)
Lemma force_zero_shape (s : state) :
  well_framed s ->
  exists s' r zs,
    force_zero w self s = (Ret tt, s')
    /\ history s' = history s ++ daq (Task t_zero) r :: zs
    /\ Forall (fun e => uses_t_zero e = true) zs.
Proof.
  intros Hs. unfold force_zero. unfold bind at 1. unfold assign_t_zero at 1.
  set (s0 := {| history := history s; local_t := local_t s;
                local_t_zero := None |}).
  assert (Hs0 : well_framed s0) by (split; [apply Hs | now left]).
  unfold try_finally, try_except. unfold bind at 1. unfold call at 1.
  change (history s0) with (history s).
  destruct (driver w (history s) (Task t_zero)) as [msg|].
  - eexists _, (Some msg), []. split; [reflexivity|]. split; [reflexivity|].
    constructor.
  - set (s1 := record (daq (Task t_zero) None) s0).
    assert (Hs1 : well_framed s1) by exact Hs0.
    destruct (write_zero_emits w self s1 Hs1) as (Hs2 & evs & He & HP).
    pose proof (write_zero_halts s1) as Hh.
    destruct (write_zero w self s1) as [rw s2]; simpl in Hs2, He, Hh.
    assert (Hrel : exists s3 evs',
               release_t_zero w s2 = (Ret tt, s3)
               /\ history s3 = history s2 ++ evs'
               /\ Forall (fun e => uses_t_zero e = true) evs').
    { destruct (release_t_zero_emits w s2 Hs2) as (_ & evs' & He' & HP').
      destruct (release_t_zero_returns s2) as [[] Hr].
      destruct (release_t_zero w s2) as [r3 s3]; simpl in *. subst r3.
      eauto. }
    destruct Hrel as (s3 & evs' & Hr3 & He3 & HP3).
    exists s3, None, (evs ++ evs').
    split.
    { destruct rw as [[]|msg|]; [| |congruence];
        unfold ret; rewrite Hr3; reflexivity. }
    split; [|apply Forall_app; auto].
    rewrite He3, He. simpl. rewrite <- !app_assoc. reflexivity.
Qed.

(** The safe-shutdown sequence returns and has the expected shape. *)
Lemma safe_shutdown_shape (s : state) :
  well_framed s ->
  exists s' sd,
    safe_shutdown w self s = (Ret tt, s')
    /\ history s' = history s ++ sd
    /\ shutdown_sequence sd.
Proof.
  intros Hs. unfold safe_shutdown. unfold bind at 1.
  destruct (release_t_emits w s Hs) as (Hs1 & rel & He & HP).
  destruct (release_t_returns s) as [[] Hr].
  destruct (release_t w s) as [r1 s1]; simpl in *. subst r1.
  unfold bind at 1. unfold log at 1.
  assert (Hs2 : well_framed (record (sleep (1 # 20)) s1)) by exact Hs1.
  destruct (force_zero_shape _ Hs2) as (s3 & r & zs & Hf & He3 & HP3).
  exists s3, (rel ++ sleep (1 # 20) :: daq (Task t_zero) r :: zs).
  split; [exact Hf|]. split.
  - rewrite He3. simpl. rewrite He, <- !app_assoc. reflexivity.
  - exists rel, r, zs. auto.
Qed.

End Shutdown.

(* --------------------------------------------------------------------- *)
(** ** Counting events *)
(* --------------------------------------------------------------------- *)

Lemma occurrences_app (f : event -> bool) (a b : list event) :
  occurrences f (a ++ b) = (occurrences f a + occurrences f b)%nat.
Proof. unfold occurrences. now rewrite List.filter_app, length_app. Qed.

Lemma occurrences_none (f : event -> bool) (l : list event) :
  Forall (fun e => f e = false) l -> occurrences f l = 0%nat.
Proof.
  unfold occurrences. induction 1 as [|e l He _ IH]; simpl; [reflexivity|].
  now rewrite He.
Qed.

Lemma Forall_weaken (P R : event -> Prop) (l : list event) :
  (forall e, P e -> R e) -> Forall P l -> Forall R l.
Proof. intros H. induction 1; constructor; auto. Qed.

Lemma last_snoc (l : list event) (e : event) : last (l ++ [e]) = Some e.
Proof. induction l as [|x [|y l] IH]; simpl in *; auto. Qed.

(** An event of the generation is none of the others. *)
Lemma generating_only (e : event) :
  generating e = true ->
  is_settle e = false /\ on_t_zero e = false /\ opens_t_zero e = false
  /\ is_finished e = false /\ is_error e = false.
Proof.
  destruct e as [| | |c r|s]; simpl; try discriminate; auto.
  - destruct c as [h|h ?|h ? ? ?|h ? ? ?|h|h|h|h ?|h ?]; destruct h; simpl;
      try discriminate; auto.
  - intros H. apply Qeq_bool_iff in H. repeat split.
    destruct (Qeq_bool s (1 # 20)) eqn:E; [|reflexivity].
    apply Qeq_bool_iff in E. rewrite H in E. discriminate.
Qed.

Lemma releases_t_only (e : event) :
  releases_t e = true ->
  is_settle e = false /\ on_t_zero e = false /\ opens_t_zero e = false
  /\ is_finished e = false /\ is_error e = false.
Proof.
  destruct e as [| | |c r|s]; simpl; try discriminate.
  destruct c as [h|h ?|h ? ? ?|h ? ? ?|h|h|h|h ?|h ?]; try discriminate;
    destruct h; try discriminate; auto.
Qed.

Lemma uses_t_zero_only (e : event) :
  uses_t_zero e = true ->
  is_settle e = false /\ opens_t_zero e = false
  /\ is_finished e = false /\ is_error e = false.
Proof.
  unfold uses_t_zero. destruct e as [| | |c r|s]; simpl; try discriminate.
  intros H. apply andb_true_iff in H as [_ H]. apply negb_true_iff in H.
  auto.
Qed.

Lemma reported_cases {A} (r : result A) :
  reported r = [] \/ exists msg, reported r = [error_emit msg].
Proof. destruct r; simpl; eauto. Qed.

(** What a shutdown sequence contains: one settle delay, one creation of
    the zero task, no signal. *)
Lemma shutdown_sequence_counts (sd : list event) :
  shutdown_sequence sd ->
  occurrences is_settle sd = 1%nat
  /\ occurrences opens_t_zero sd = 1%nat
  /\ Forall (fun e => is_terminal e = false) sd.
Proof.
  intros (rel & r & zs & -> & Hrel & Hzs).
  assert (Hr : forall f,
             (forall e, releases_t e = true -> f e = false) ->
             occurrences f rel = 0%nat).
  { intros f Hf. apply occurrences_none.
    eapply Forall_weaken; [|exact Hrel]. exact Hf. }
  assert (Hz : forall f,
             (forall e, uses_t_zero e = true -> f e = false) ->
             occurrences f zs = 0%nat).
  { intros f Hf. apply occurrences_none.
    eapply Forall_weaken; [|exact Hzs]. exact Hf. }
  split; [|split].
  - rewrite occurrences_app.
    change (occurrences is_settle (sleep (1 # 20) :: daq (Task t_zero) r :: zs))
      with (S (occurrences is_settle zs)).
    rewrite Hr, Hz; [reflexivity|..]; intros e He.
    + now apply uses_t_zero_only in He.
    + now apply releases_t_only in He.
  - rewrite occurrences_app.
    change (occurrences opens_t_zero
              (sleep (1 # 20) :: daq (Task t_zero) r :: zs))
      with (S (occurrences opens_t_zero zs)).
    rewrite Hr, Hz; [reflexivity|..]; intros e He.
    + now apply uses_t_zero_only in He.
    + now apply releases_t_only in He.
  - apply Forall_app. split; [|repeat constructor].
    + eapply Forall_weaken; [|exact Hrel]. intros e He.
      apply releases_t_only in He as (_ & _ & _ & Hf & Herr).
      unfold is_terminal. now rewrite Hf, Herr.
    + eapply Forall_weaken; [|exact Hzs]. intros e He.
      apply uses_t_zero_only in He as (_ & _ & Hf & Herr).
      unfold is_terminal. now rewrite Hf, Herr.
Qed.

(* --------------------------------------------------------------------- *)
(** ** The shape of a whole run *)
(* --------------------------------------------------------------------- *)

Section WholeRun.
Variable w : world.
Variable self : DAQWorker.

Lemma fresh_framed : well_framed fresh.
Proof. split; now left. Qed.

(** The [try] block leaves a frame the [finally] block can read, and
    with the driver at hand its events are those of the generation;
    without the driver it emits the error signal and returns. *)
Lemma generate_cases (fuel : nat) (s : state) :
  well_framed s ->
  well_framed (generate w self fuel s).2
  /\ (if DAQ_AVAILABLE w then
        exists gen, history (generate w self fuel s).2 = history s ++ gen
                    /\ Forall (fun e => generating e = true) gen
      else
        generate w self fuel s
        = (Ret tt, record (error_emit "PyDAQmx is not installed.") s)).
Proof.
  intros Hs. destruct (DAQ_AVAILABLE w) eqn:Hav.
  - exact (generate_emits w self fuel Hav s Hs).
  - unfold generate. rewrite Hav. simpl. split; [exact Hs | reflexivity].
Qed.

(** The [finally] block: the shutdown sequence when the driver is at
    hand, then the finished signal; it always returns. *)
Lemma finally_shape (s : state) :
  well_framed s ->
  exists s' sd,
    ((if DAQ_AVAILABLE w then safe_shutdown w self else ret tt)
       >> log finished_emit)%function s = (Ret tt, s')
    /\ history s' = history s ++ sd ++ [finished_emit]
    /\ (if DAQ_AVAILABLE w then shutdown_sequence sd else sd = []).
Proof.
  intros Hs. unfold bind. destruct (DAQ_AVAILABLE w).
  - destruct (safe_shutdown_shape w self s Hs) as (s1 & sd & Hr & He & Hsd).
    rewrite Hr. unfold log. eexists _, sd. split; [reflexivity|].
    split; [|exact Hsd]. simpl. rewrite He, <- app_assoc. reflexivity.
  - unfold ret, log. eexists _, []. split; [reflexivity|].
    split; reflexivity.
Qed.

(** [run] from the outcome of its [try] block. *)
Lemma run_shape (fuel : nat) (s : state) :
  well_framed s ->
  match (generate w self fuel s).1 with
  | OutOfFuel => (run w self fuel s).1 = OutOfFuel
  | rg =>
      exists s' sd,
        run w self fuel s = (Ret tt, s')
        /\ history s'
           = history (generate w self fuel s).2 ++ reported rg
             ++ sd ++ [finished_emit]
        /\ (if DAQ_AVAILABLE w then shutdown_sequence sd else sd = [])
  end.
Proof.
  intros Hs. destruct (generate_cases fuel s Hs) as [Hsg _].
  unfold run, try_finally, try_except.
  destruct (generate w self fuel s) as [[[]|msg|] sg]; simpl in *;
    [| |reflexivity].
  - destruct (finally_shape sg Hsg) as (s' & sd & Hr & He & Hsd).
    rewrite Hr. exists s', sd. auto.
  - change (log (error_emit msg) sg)
      with (@Ret unit tt, record (error_emit msg) sg).
    cbv beta iota.
    assert (Hs1 : well_framed (record (error_emit msg) sg)) by exact Hsg.
    destruct (finally_shape _ Hs1) as (s' & sd & Hr & He & Hsd).
    rewrite Hr. exists s', sd. split; [reflexivity|]. split; [|exact Hsd].
    rewrite He. simpl. rewrite <- app_assoc. reflexivity.
Qed.

(** A run that ends has emitted, in this order: the events of the [try]
    block, the error signal if the block raised, the shutdown sequence
    if the driver is at hand, and the finished signal. No exception
    leaves [run]. *)
Lemma execute_shape (fuel : nat) :
  match execute w self fuel with
  | Finished tr =>
      exists sd,
        tr = history (generate w self fuel fresh).2
             ++ reported (generate w self fuel fresh).1
             ++ sd ++ [finished_emit]
        /\ (if DAQ_AVAILABLE w then shutdown_sequence sd else sd = [])
  | Uncaught _ _ => False
  | Diverged => (generate w self fuel fresh).1 = OutOfFuel
  end.
Proof.
  pose proof (run_shape fuel fresh fresh_framed) as H. unfold execute.
  destruct ((generate w self fuel fresh).1) as [[]|msg|] eqn:E.
  - destruct H as (s' & sd & -> & He & Hsd). exists sd. auto.
  - destruct H as (s' & sd & -> & He & Hsd). exists sd. auto.
  - destruct (run w self fuel fresh) as [r s']; simpl in H. now subst r.
Qed.

(** The events before the shutdown sequence, with the driver at hand: no
    settle delay, nothing on the zero task, no finished signal, and no
    error signal but the one [run] emits for its [try] block. *)
Lemma before_shutdown (fuel : nat) :
  DAQ_AVAILABLE w = true ->
  Forall (fun e => generating e = true)
         (history (generate w self fuel fresh).2).
Proof.
  intros Hav.
  destruct (generate_cases fuel fresh fresh_framed) as [_ H].
  rewrite Hav in H. destruct H as (gen & -> & Hgen). exact Hgen.
Qed.

(** Enough fuel: a finite run, or a run that is stopped, ends. *)
Lemma execute_ends (n fuel : nat) :
  infinite self = false \/ _stop_requested self = true
  \/ (forall h, (n <= length h)%nat -> stop_set w h = true) ->
  (enough_fuel self n <= fuel)%nat ->
  exists tr, execute w self fuel = Finished tr.
Proof.
  intros Hstop Hfuel.
  pose proof (generate_halts w self fuel n Hstop Hfuel fresh) as Hh.
  pose proof (execute_shape fuel) as H.
  destruct (execute w self fuel) as [tr|msg tr|]; [eauto|tauto|congruence].
Qed.

End WholeRun.

(* --------------------------------------------------------------------- *)
(** ** The safe shutdown and the signals of a run *)
(* --------------------------------------------------------------------- *)




(** C2, as amended: no exception leaves a run; every run that ends emits
    the finished signal exactly once, as its last event, and the error
    signal at most once, before the shutdown sequence; when the body of
    the run raises (a driver error), the error signal carries the message
    of that exception, and it is followed by the finished signal, so that
    such a run sends two signals to the window; errors raised during the
    shutdown sequence emit nothing. *)
Theorem finished_once_error_at_most_once
    (w : world) (self : DAQWorker) (fuel : nat) :
  (forall msg tr, execute w self fuel <> Uncaught msg tr)
  /\ (forall tr,
        execute w self fuel = Finished tr ->
        exists pre err sd,
          tr = pre ++ err ++ sd ++ [finished_emit]
          /\ Forall (fun e => is_terminal e = false) pre
          /\ Forall (fun e => is_terminal e = false) sd
          /\ (err = [] \/ exists msg, err = [error_emit msg])
          /\ occurrences is_finished tr = 1%nat
          /\ occurrences is_error tr = length err
          /\ occurrences is_terminal tr = (1 + length err)%nat
          /\ last tr = Some finished_emit)
  /\ (forall msg sg,
        DAQ_AVAILABLE w = true ->
        generate w self fuel fresh = (Raise msg, sg) ->
        exists sd,
          execute w self fuel
          = Finished (history sg ++ [error_emit msg] ++ sd ++ [finished_emit])
          /\ Forall (fun e => is_terminal e = false) (history sg)
          /\ Forall (fun e => is_terminal e = false) sd)
  /\ (forall sg,
        DAQ_AVAILABLE w = true ->
        generate w self fuel fresh = (Ret tt, sg) ->
        exists sd,
          execute w self fuel = Finished (history sg ++ sd ++ [finished_emit])
          /\ Forall (fun e => is_terminal e = false) (history sg)
          /\ Forall (fun e => is_terminal e = false) sd).
Proof.
  pose proof (execute_shape w self fuel) as H.
  assert (Hquiet : DAQ_AVAILABLE w = true ->
                   Forall (fun e => is_terminal e = false)
                          (history (generate w self fuel fresh).2)).
  { intros Hav. eapply Forall_weaken; [|exact (before_shutdown w self fuel Hav)].
    intros e He. apply generating_only in He as (_ & _ & _ & Hf & Herr).
    unfold is_terminal. now rewrite Hf, Herr. }
  assert (Hsdq : forall sd,
             (if DAQ_AVAILABLE w then shutdown_sequence sd else sd = []) ->
             Forall (fun e => is_terminal e = false) sd).
  { intros sd Hsd. destruct (DAQ_AVAILABLE w).
    - now apply shutdown_sequence_counts in Hsd.
    - subst sd. constructor. }
  split; [|split; [|split]].
  - intros msg tr E. rewrite E in H. exact H.
  - intros tr E. rewrite E in H. destruct H as (sd & -> & Hsd).
    assert (Hdec : exists pre err,
               history (generate w self fuel fresh).2
               ++ reported (generate w self fuel fresh).1 = pre ++ err
               /\ Forall (fun e => is_terminal e = false) pre
               /\ (err = [] \/ exists msg, err = [error_emit msg])).
    { destruct (DAQ_AVAILABLE w) eqn:Hav.
      - exists (history (generate w self fuel fresh).2),
               (reported (generate w self fuel fresh).1).
        split; [reflexivity|]. split; [now apply Hquiet|].
        apply reported_cases.
      - exists [], [error_emit "PyDAQmx is not installed."].
        unfold generate. rewrite Hav. simpl. split; [reflexivity|].
        split; [constructor | right; eauto]. }
    destruct Hdec as (pre & err & Hpe & Hpre & Herr).
    specialize (Hsdq sd Hsd).
    exists pre, err, sd. rewrite app_assoc, Hpe, <- app_assoc.
    split; [reflexivity|]. split; [exact Hpre|]. split; [exact Hsdq|].
    split; [exact Herr|].
    assert (Hcount : forall f,
               (forall e, is_terminal e = false -> f e = false) ->
               occurrences f (pre ++ err ++ sd ++ [finished_emit])
               = (occurrences f err + occurrences f [finished_emit])%nat).
    { intros f Hf. rewrite !occurrences_app.
      rewrite (occurrences_none f pre), (occurrences_none f sd); [lia|..];
        (eapply Forall_weaken; [exact Hf|assumption]). }
    assert (Hsub : forall e, is_terminal e = false ->
                             is_finished e = false /\ is_error e = false).
    { intros e He. unfold is_terminal in He. now apply orb_false_iff in He. }
    split; [|split; [|split]].
    + rewrite Hcount by (intros e He; now apply Hsub in He).
      destruct Herr as [->|[msg ->]]; reflexivity.
    + rewrite Hcount by (intros e He; now apply Hsub in He).
      destruct Herr as [->|[msg ->]]; reflexivity.
    + rewrite Hcount by auto.
      destruct Herr as [->|[msg ->]]; reflexivity.
    + rewrite !app_assoc. apply last_snoc.
  - intros msg sg Hav E. rewrite E in Hquiet. simpl in Hquiet.
    destruct (execute w self fuel) as [tr|m tr|]; try rewrite E in H;
      simpl in H; [|tauto|discriminate].
    destruct H as (sd & -> & Hsd). exists sd. auto.
  - intros sg Hav E. rewrite E in Hquiet. simpl in Hquiet.
    destruct (execute w self fuel) as [tr|m tr|]; try rewrite E in H;
      simpl in H; [|tauto|discriminate].
    destruct H as (sd & -> & Hsd). exists sd. auto.
Qed.

Lemma finished_once_error_at_most_once_witness :
  exists tr pre err sd,
    execute busy_device short_train 20 = Finished tr
    /\ tr = pre ++ err ++ sd ++ [finished_emit]
    /\ (err = [] \/ exists msg, err = [error_emit msg])
    /\ occurrences is_finished tr = 1%nat
    /\ occurrences is_error tr = length err
    /\ last tr = Some finished_emit.
Proof.
  destruct (finished_once_error_at_most_once busy_device short_train 20)
    as (_ & Hsig & _ & _).
  destruct (Hsig _ eq_refl)
    as (pre & err & sd & Htr & _ & _ & Herr & Hfin & Hnerr & _ & Hlast).
  eexists _, pre, err, sd. split; [reflexivity|].
  repeat split; assumption.
Defined.

(** C2, as stated, fails: when the driver refuses to create the main task
    the run emits two terminal signals, the error and then finished, and
    the window runs its clean-up twice. *)
Lemma error_then_finished :
  let tr :=
    [ daq (Task t_main) (Some "Device is reserved"%string);
      error_emit "Device is reserved";
      sleep (1 # 20);
      daq (Task t_zero) None;
      daq (CreateAOVoltageChan t_zero (lit "Dev2/ao0")) None;
      daq (StartTask t_zero) None;
      daq (WriteAnalogScalarF64 t_zero 0) None;
      daq (StopTask t_zero) None;
      daq (ClearTask t_zero) None;
      finished_emit ] in
  execute busy_device short_train 20 = Finished tr
  /\ occurrences is_terminal tr <> 1%nat
  /\ delivered tr
     = [ on_generation_error "Device is reserved";
         on_generation_finished; on_generation_finished ].
Proof.
  cbv zeta. split; [vm_compute; reflexivity|].
  split; [vm_compute; discriminate | reflexivity].
Qed.

(** The shutdown sequence releases the main task only: when the delay task
    fails to start, the run reports the error, runs the shutdown sequence
    and finishes, and the delay task is neither stopped nor cleared. *)
Example delay_task_left_open :
  execute delay_start_fails delayed_train 20
  = Finished
      [ started_emit;
        daq (Task t_delay) None;
        daq (CreateAOVoltageChan t_delay (lit "Dev2/ao0")) None;
        daq (CfgSampClkTiming t_delay 10 DAQmx_Val_FiniteSamps 5) None;
        daq (WriteAnalogF64 t_delay 5 false [0; 0; 0; 0; 0]) None;
        daq (StartTask t_delay) (Some "Start failed"%string);
        error_emit "Start failed";
        sleep (1 # 20);
        daq (Task t_zero) None;
        daq (CreateAOVoltageChan t_zero (lit "Dev2/ao0")) None;
        daq (StartTask t_zero) None;
        daq (WriteAnalogScalarF64 t_zero 0) None;
        daq (StopTask t_zero) None;
        daq (ClearTask t_zero) None;
        finished_emit ].
Proof. vm_compute. reflexivity. Qed.

(* ===================================================================== *)
(** * Further properties of the code *)
(* ===================================================================== *)

(* --------------------------------------------------------------------- *)
(** ** More on [strip] and [build_channel_path] *)
(* --------------------------------------------------------------------- *)

Lemma lstrip_idempotent (s : pystr) : lstrip (lstrip s) = lstrip s.
Proof.
  induction s as [|c s IH]; simpl; [reflexivity|].
  destruct (isspace c) eqn:E; [exact IH|]. simpl. now rewrite E.
Qed.

Lemma lstrip_snoc (l : pystr) (c : codepoint) :
  lstrip (l ++ [c])
  = if forallb isspace l then lstrip [c] else lstrip l ++ [c].
Proof.
  induction l as [|x l IH]; [reflexivity|]. simpl.
  destruct (isspace x); simpl; [exact IH | reflexivity].
Qed.

Lemma rstrip_cons (c : codepoint) (s : pystr) :
  rstrip (c :: s)
  = if forallb isspace s && isspace c then [] else c :: rstrip s.
Proof.
  unfold rstrip. simpl rev. rewrite lstrip_snoc, forallb_rev.
  destruct (forallb isspace s) eqn:F; simpl andb; cbv iota.
  - assert (H : lstrip (rev s) = []).
    { apply lstrip_nil_iff. now rewrite forallb_rev. }
    rewrite H. simpl. now destruct (isspace c).
  - now rewrite rev_app_distr.
Qed.

Lemma lstrip_rstrip (s : pystr) : lstrip (rstrip s) = rstrip (lstrip s).
Proof.
  induction s as [|c s IH]; [reflexivity|].
  rewrite rstrip_cons. simpl lstrip.
  destruct (isspace c) eqn:E.
  - rewrite andb_true_r. destruct (forallb isspace s) eqn:F.
    + apply lstrip_nil_iff in F. rewrite F. reflexivity.
    + simpl. rewrite E. exact IH.
  - rewrite andb_false_r. simpl. rewrite E.
    rewrite rstrip_cons, E, andb_false_r. reflexivity.
Qed.

Lemma rstrip_idempotent (s : pystr) : rstrip (rstrip s) = rstrip s.
Proof.
  unfold rstrip. now rewrite rev_involutive, lstrip_idempotent.
Qed.

Lemma strip_idempotent (s : pystr) : strip (strip s) = strip s.
Proof.
  unfold strip.
  now rewrite lstrip_rstrip, lstrip_idempotent, rstrip_idempotent.
Qed.

Lemma forallb_isspace_strip (s : pystr) :
  forallb isspace (strip s) = true -> forallb isspace s = true.
Proof.
  intros H. apply strip_nil_iff. apply strip_nil_iff in H.
  now rewrite strip_idempotent in H.
Qed.

(** X1: stripping its arguments beforehand does not change the path: the
    device and channel that [start_generation] keeps for the saved record
    (the stripped texts) give back the path the worker was started on. *)
Theorem build_channel_path_stripped (device_str channel_str : pystr) :
  strip (strip device_str) = strip device_str
  /\ build_channel_path (strip device_str) (strip channel_str)
     = build_channel_path device_str channel_str.
Proof.
  split; [apply strip_idempotent|].
  unfold build_channel_path. now rewrite !strip_idempotent.
Qed.

Lemma lstrip_head (s : pystr) (c : codepoint) :
  head (lstrip s) = Some c -> isspace c = false.
Proof.
  induction s as [|x s IH]; simpl; [discriminate|].
  destruct (isspace x) eqn:E; [exact IH|]. simpl. now intros [= <-].
Qed.

Lemma last_rev_head {A} (l : list A) : last (rev l) = head l.
Proof.
  destruct l as [|x l]; [reflexivity|]. simpl.
  clear. generalize (rev l). intros r.
  induction r as [|y [|z r] IH]; simpl in *; auto.
Qed.

Lemma strip_trimmed (s : pystr) (c : codepoint) :
  head (strip s) = Some c \/ last (strip s) = Some c -> isspace c = false.
Proof.
  intros [H|H].
  - unfold strip in H. rewrite <- lstrip_rstrip in H.
    now apply lstrip_head in H.
  - unfold strip, rstrip in H. rewrite last_rev_head in H.
    now apply lstrip_head in H.
Qed.

Lemma last_snoc_any {A} (l : list A) (x : A) : last (l ++ [x]) = Some x.
Proof. induction l as [|y [|z l] IH]; simpl in *; auto. Qed.

(** The two parts of the path, as the function computes them. *)
Lemma build_channel_path_parts (device_str channel_str : pystr) :
  build_channel_path device_str channel_str
  = device_part device_str ++ lit "/" ++ channel_part channel_str.
Proof.
  unfold build_channel_path, or_, device_part, channel_part.
  rewrite !truthy_strip.
  destruct (forallb isspace device_str), (forallb isspace channel_str) eqn:E;
    simpl; try reflexivity.
  all: destruct (strip channel_str) eqn:S; [|reflexivity].
  all: apply strip_nil_iff in S; congruence.
Qed.

(** X2: neither part of the path starts or ends with white space, so the
    path has no white space at its ends or around its "/". *)
Theorem build_channel_path_trimmed
    (device_str channel_str : pystr) (c : codepoint) :
  (head (device_part device_str) = Some c
   \/ last (device_part device_str) = Some c
   \/ head (channel_part channel_str) = Some c
   \/ last (channel_part channel_str) = Some c ->
   isspace c = false)
  /\ (head (build_channel_path device_str channel_str) = Some c
      \/ last (build_channel_path device_str channel_str) = Some c ->
      isspace c = false).
Proof.
  assert (Hd : head (device_part device_str) = Some c
               \/ last (device_part device_str) = Some c ->
               isspace c = false).
  { unfold device_part. destruct (forallb isspace device_str).
    - intros [H|H]; vm_compute in H; injection H as <-; reflexivity.
    - apply strip_trimmed. }
  assert (Hc : head (channel_part channel_str) = Some c
               \/ last (channel_part channel_str) = Some c ->
               isspace c = false).
  { unfold channel_part. destruct (forallb isspace channel_str).
    - intros [H|H]; vm_compute in H; injection H as <-; reflexivity.
    - apply strip_trimmed. }
  split; [tauto|].
  rewrite build_channel_path_parts.
  assert (Hdn : device_part device_str <> []).
  { unfold device_part. destruct (forallb isspace device_str) eqn:E;
      [discriminate|]. intros H. apply strip_nil_iff in H. congruence. }
  assert (Hcn : channel_part channel_str <> []).
  { unfold channel_part. destruct (forallb isspace channel_str) eqn:E;
      [discriminate|]. intros H. apply strip_nil_iff in H. congruence. }
  intros [H|H].
  - apply Hd. left. destruct (device_part device_str); [tauto | exact H].
  - apply Hc. right. rewrite app_assoc in H.
    destruct (channel_part channel_str) as [|x l] using rev_ind; [tauto|].
    rewrite app_assoc, last_snoc_any in H. now rewrite last_snoc_any.
Qed.

Lemma build_channel_path_trimmed_witness :
  head (build_channel_path (lit " Dev1 ") (lit "ao1 ")) = Some 68%N
  /\ last (build_channel_path (lit " Dev1 ") (lit "ao1 ")) = Some 49%N
  /\ isspace 68%N = false
  /\ isspace 49%N = false.
Proof.
  split; [reflexivity|]. split; [reflexivity|]. split.
  - apply (proj2 (build_channel_path_trimmed
                    (lit " Dev1 ") (lit "ao1 ") 68%N)).
    left. reflexivity.
  - apply (proj2 (build_channel_path_trimmed
                    (lit " Dev1 ") (lit "ao1 ") 49%N)).
    right. reflexivity.
Defined.

(* --------------------------------------------------------------------- *)
(** ** More on the state indicator *)
(* --------------------------------------------------------------------- *)

(** The position in the cycle lies in the cycle. *)
Lemma fmod_range (a b : Q) :
  0 < b -> exists r, fmod a b = Some r /\ 0 <= r /\ r < b.
Proof.
  intros Hb. unfold fmod.
  destruct (Qeq_bool b 0) eqn:E.
  { apply Qeq_bool_iff in E. lra. }
  eexists. split; [reflexivity|].
  pose proof (Qfloor_le (a / b)) as Hlo.
  pose proof (Qlt_floor (a / b)) as Hhi.
  rewrite inject_Z_plus in Hhi.
  change (inject_Z 1) with 1 in Hhi.
  assert (Ha : a == b * (a / b)).
  { field. intros H. rewrite H in Hb. now apply Qlt_irrefl in Hb. }
  assert (H1 : b * inject_Z (Qfloor (a / b)) <= b * (a / b)).
  { apply Qmult_le_l; assumption. }
  assert (H2 : b * (a / b) < b * (inject_Z (Qfloor (a / b)) + 1)).
  { apply Qmult_lt_l; assumption. }
  rewrite Qmult_plus_distr_r, Qmult_1_r in H2.
  remember (b * (a / b)) as x eqn:Ex.
  remember (b * inject_Z (Qfloor (a / b))) as y eqn:Ey.
  clear Ex Ey Hlo Hhi. split; lra.
Qed.

Lemma fmod_small (r b : Q) : 0 <= r -> r < b -> same_remaining (fmod r b) (Some r).
Proof.
  intros Hlo Hhi. unfold fmod.
  destruct (Qeq_bool b 0) eqn:E.
  { apply Qeq_bool_iff in E. lra. }
  assert (Hf : Qfloor (r / b) = 0%Z).
  { apply Qfloor_unique.
    - change (inject_Z 0) with 0. apply Qle_shift_div_l; lra.
    - change (inject_Z (0 + 1)) with 1. apply Qlt_shift_div_r; lra. }
  rewrite Hf. cbv [same_remaining]. change (inject_Z 0) with 0. lra.
Qed.

(** X3: the computation of the indicator divides by zero exactly in
    infinite mode with a cycle of zero length, once the initial delay is
    over; in finite mode it never does (a train of zero-length cycles is
    [Done] at once). *)
Theorem state_indicator_division_by_zero (p : worker_params) (elapsed : Q) :
  state_indicator p elapsed = ZeroDivisionError
  <-> p_infinite p = true
      /\ p_trigger p + p_interval p == 0
      /\ p_initial_trigger_delay p <= elapsed.
Proof.
  unfold state_indicator.
  destruct (Qlt_b elapsed (p_initial_trigger_delay p)) eqn:E1.
  { apply Qlt_b_iff in E1. split; [discriminate|]. intros (_ & _ & H). lra. }
  apply Qlt_b_false_iff in E1.
  assert (Hmod : forall a,
             match fmod a (p_trigger p + p_interval p) with
             | Some pos =>
                 if Qlt_b pos (p_trigger p)
                 then Shown Active (Some (p_trigger p - pos))
                 else Shown Interval
                        (Some (p_trigger p + p_interval p - pos))
             | None => ZeroDivisionError
             end = ZeroDivisionError
             <-> p_trigger p + p_interval p == 0).
  { intros a. unfold fmod.
    destruct (Qeq_bool (p_trigger p + p_interval p) 0) eqn:E.
    - apply Qeq_bool_iff in E. tauto.
    - apply Qeq_bool_neq in E.
      destruct (Qlt_b _ (p_trigger p)); split; (discriminate || tauto). }
  destruct (p_infinite p).
  { rewrite Hmod. tauto. }
  destruct (Qle_bool _ (elapsed - p_initial_trigger_delay p)) eqn:E2.
  { split; [discriminate | intros (H & _); discriminate]. }
  rewrite Hmod. split; [|intros (H & _); discriminate].
  intros H. exfalso.
  assert (H2 : ~ inject_Z (p_nb_triggers p) * (p_trigger p + p_interval p)
                 <= elapsed - p_initial_trigger_delay p).
  { intros H'. apply Qle_bool_iff in H'. congruence. }
  apply H2. rewrite H. lra.
Qed.

Lemma state_indicator_division_by_zero_witness :
  state_indicator zero_cycle 2 = ZeroDivisionError.
Proof.
  apply (proj2 (state_indicator_division_by_zero zero_cycle 2)).
  split; [reflexivity|]. split; [reflexivity|]. simpl. lra.
Defined.





(* --------------------------------------------------------------------- *)
(** ** More on the buffers *)
(* --------------------------------------------------------------------- *)

Lemma slice_stop_le (len : nat) (k : Z) : (slice_stop len k <= len)%nat.
Proof.
  unfold slice_stop. destruct (Z.ltb_spec k 0); lia.
Qed.

Lemma set_prefix_length (a : list Q) (k : Z) (v : Q) :
  length (set_prefix a k v) = length a.
Proof.
  unfold set_prefix. pose proof (slice_stop_le (length a) k).
  rewrite length_app, length_replicate, length_drop. lia.
Qed.



(* --------------------------------------------------------------------- *)
(** ** More on the shutdown sequence *)
(* --------------------------------------------------------------------- *)

Section ShutdownMore.
Variable w : world.
Variable self : DAQWorker.

(** A run that does not run out of fuel ends with what the shutdown
    sequence leaves, followed by the finished signal. *)
Lemma execute_via_shutdown (fuel : nat) (s2 : state) :
  DAQ_AVAILABLE w = true ->
  (generate w self fuel fresh).1 <> OutOfFuel ->
  safe_shutdown w self (after_generate w self fuel) = (Ret tt, s2) ->
  execute w self fuel = Finished (history s2 ++ [finished_emit]).
Proof.
  intros Hav Hfuel Hsd.
  unfold execute, run, try_finally, try_except. unfold after_generate in Hsd.
  destruct (generate w self fuel fresh) as [[[]|msg|] sg]; simpl in *;
    [| |congruence].
  - rewrite app_nil_r in Hsd. destruct sg as [h t tz]; simpl in *.
    unfold bind. rewrite Hav, Hsd. reflexivity.
  - unfold bind, log at 1, record. simpl. rewrite Hav, Hsd. reflexivity.
Qed.

Lemma after_generate_framed (fuel : nat) :
  well_framed (after_generate w self fuel).
Proof.
  destruct (generate_cases w self fuel fresh (fresh_framed)) as [H _].
  exact H.
Qed.

(** When no call on the zero task fails, the forcing of the output runs
    to its end. *)
Lemma force_zero_ok (s : state) :
  (forall h c, task_of c = t_zero -> driver w h c = None) ->
  force_zero w self s
  = (Ret tt,
     {| history := history s
                   ++ zero_events (has_WriteAnalogScalarF64 w) (device self);
        local_t := local_t s;
        local_t_zero := Some t_zero |}).
Proof.
  intros Hz.
  unfold force_zero, write_zero, release_t_zero, zero_events.
  unfold try_finally, try_except, bind, call, assign_t_zero, read_t_zero,
    ret, record.
  destruct (has_WriteAnalogScalarF64 w); simpl;
    repeat (rewrite Hz by reflexivity; simpl);
    rewrite <- ?app_assoc; reflexivity.
Qed.

(** Without a main task to release, the shutdown sequence starts with the
    settle delay. *)
Lemma safe_shutdown_unbound (s : state) :
  well_framed s ->
  local_t s <> Some (Some t_main) ->
  exists s' r zs,
    safe_shutdown w self s = (Ret tt, s')
    /\ history s' = history s ++ sleep (1 # 20) :: daq (Task t_zero) r :: zs
    /\ Forall (fun e => uses_t_zero e = true) zs.
Proof.
  intros Hs Ht. unfold safe_shutdown. unfold bind at 1.
  assert (Hrel : release_t w s = (Ret tt, s)).
  { unfold release_t, bind, read_t.
    destruct Hs as [[H|[H|H]] _]; rewrite H in *; try reflexivity.
    congruence. }
  rewrite Hrel. unfold bind at 1, log at 1.
  assert (Hs2 : well_framed (record (sleep (1 # 20)) s)) by exact Hs.
  destruct (force_zero_shape w self _ Hs2) as (s3 & r & zs & Hf & He & HP).
  exists s3, r, zs. split; [exact Hf|]. split; [|exact HP].
  rewrite He. simpl. rewrite <- app_assoc. reflexivity.
Qed.

(** The release of the main task and the settle delay are followed by a
    complete forcing when no call on the zero task fails. *)
Lemma safe_shutdown_ok (s : state) :
  well_framed s ->
  (forall h c, task_of c = t_zero -> driver w h c = None) ->
  exists s' rel,
    safe_shutdown w self s = (Ret tt, s')
    /\ history s'
       = history s ++ rel ++ sleep (1 # 20)
         :: zero_events (has_WriteAnalogScalarF64 w) (device self)
    /\ Forall (fun e => releases_t e = true) rel.
Proof.
  intros Hs Hz. unfold safe_shutdown. unfold bind at 1.
  destruct (release_t_emits w s Hs) as (Hs1 & rel & He & HP).
  destruct (release_t_returns w s) as [[] Hr].
  destruct (release_t w s) as [r1 s1]; simpl in *. subst r1.
  unfold bind at 1, log at 1. rewrite force_zero_ok by exact Hz.
  eexists _, rel. split; [reflexivity|]. split; [|exact HP].
  simpl. rewrite He, <- !app_assoc. reflexivity.
Qed.

(** X7: when PyDAQmx is available and no driver call on the zero task
    fails, every run that ends, whatever happened before (completion,
    stop, error), ends with the settle delay, the complete sequence that
    creates the zero task, writes 0 V and releases the task, and then the
    finished signal. *)
Theorem output_forced_to_zero (fuel : nat) (tr : list event) :
  DAQ_AVAILABLE w = true ->
  (forall h c, task_of c = t_zero -> driver w h c = None) ->
  execute w self fuel = Finished tr ->
  exists front,
    tr = front
         ++ sleep (1 # 20)
            :: zero_events (has_WriteAnalogScalarF64 w) (device self)
         ++ [finished_emit].
Proof.
  intros Hav Hz Hex.
  assert (Hfuel : (generate w self fuel fresh).1 <> OutOfFuel).
  { pose proof (execute_shape w self fuel) as H. rewrite Hex in H.
    intros E. destruct H as (sd & _ & _).
    unfold execute, run, try_finally, try_except in Hex.
    destruct (generate w self fuel fresh) as [[[]|msg|] sg];
      simpl in *; discriminate. }
  destruct (safe_shutdown_ok _ (after_generate_framed fuel) Hz)
    as (s2 & rel & Hsd & He & _).
  rewrite (execute_via_shutdown fuel s2 Hav Hfuel Hsd) in Hex.
  injection Hex as <-.
  exists (history (after_generate w self fuel) ++ rel).
  rewrite He, <- !app_assoc. reflexivity.
Qed.

End ShutdownMore.

Lemma output_forced_to_zero_witness :
  exists front,
    [ daq (Task t_main) (Some "Device is reserved"%string);
      error_emit "Device is reserved";
      sleep (1 # 20);
      daq (Task t_zero) None;
      daq (CreateAOVoltageChan t_zero (lit "Dev2/ao0")) None;
      daq (StartTask t_zero) None;
      daq (WriteAnalogScalarF64 t_zero 0) None;
      daq (StopTask t_zero) None;
      daq (ClearTask t_zero) None;
      finished_emit ]
    = front
      ++ sleep (1 # 20)
         :: zero_events (has_WriteAnalogScalarF64 busy_device)
              (device short_train)
      ++ [finished_emit].
Proof.
  apply (output_forced_to_zero busy_device short_train 20).
  - reflexivity.
  - intros h c Hc. destruct c as [[]| | | | | | | |]; try reflexivity;
      discriminate.
  - vm_compute. reflexivity.
Defined.

(* --------------------------------------------------------------------- *)
(** ** Runs on parameters that cannot be played *)
(* --------------------------------------------------------------------- *)

(** X8: when the sample counts give a negative cycle length, the run, for
    any fuel, makes no driver call for the generation: it emits the error
    signal with numpy's message, runs the shutdown sequence without any
    task to release, and emits the finished signal. *)
Theorem negative_cycle_reported (w : world) (self : DAQWorker) (fuel : nat) :
  DAQ_AVAILABLE w = true ->
  (samples_per_cycle self < 0)%Z ->
  exists r zs,
    execute w self fuel
    = Finished (error_emit "negative dimensions are not allowed"
                :: sleep (1 # 20) :: daq (Task t_zero) r :: zs
                ++ [finished_emit])
    /\ Forall (fun e => uses_t_zero e = true) zs.
Proof.
  intros Hav Hneg.
  assert (Hgen : generate w self fuel fresh
                 = (Raise "negative dimensions are not allowed", fresh)).
  { unfold generate. rewrite Hav. simpl negb. cbv iota zeta.
    unfold bind at 1. unfold Sig_cycle, np_zeros.
    destruct (Z.ltb_spec (samples_per_cycle self) 0); [reflexivity | lia]. }
  assert (Hfuel : (generate w self fuel fresh).1 <> OutOfFuel)
    by (rewrite Hgen; discriminate).
  assert (Ht : local_t (after_generate w self fuel) <> Some (Some t_main)).
  { unfold after_generate. rewrite Hgen. discriminate. }
  destruct (safe_shutdown_unbound w self _
              (after_generate_framed w self fuel) Ht)
    as (s2 & r & zs & Hsd & He & HP).
  exists r, zs. split; [|exact HP].
  rewrite (execute_via_shutdown w self fuel s2 Hav Hfuel Hsd), He.
  unfold after_generate. rewrite Hgen. reflexivity.
Qed.

Lemma negative_cycle_reported_witness :
  exists r zs,
    execute quiet_world (init (lit "Dev2/ao0") 10 (2 # 10) (-1) true 5 0) 3
    = Finished (error_emit "negative dimensions are not allowed"
                :: sleep (1 # 20) :: daq (Task t_zero) r :: zs
                ++ [finished_emit])
    /\ Forall (fun e => uses_t_zero e = true) zs.
Proof.
  apply (negative_cycle_reported quiet_world
           (init (lit "Dev2/ao0") 10 (2 # 10) (-1) true 5 0) 3).
  - reflexivity.
  - vm_compute. reflexivity.
Defined.

(* --------------------------------------------------------------------- *)
(** ** A stop requested before the run starts *)
(* --------------------------------------------------------------------- *)

Section Stopped.
Variable w : world.
Variable self : DAQWorker.
Hypothesis Hstop : always_stopped w self.
Variable P : event -> Prop.

Lemma bind_stop_requested {B} (k : bool -> M B) (s : state) :
  bind (stop_requested w self) k s = k true s.
Proof using Hstop. unfold bind, stop_requested. now rewrite Hstop. Qed.

Lemma emits_bind_stopped {B} (k : bool -> M B) :
  emits P (k true) -> emits P (bind (stop_requested w self) k).
Proof using Hstop.
  intros Hk s Hs. rewrite bind_stop_requested. now apply Hk.
Qed.

Lemma emits_wait_done_stopped (fuel : nat) (h : task) (timeout : Q)
    (elapsed : Z) :
  emits P (wait_done w self fuel h timeout elapsed).
Proof using Hstop.
  destruct fuel as [|fuel]; simpl; [apply emits_out_of_fuel|].
  apply emits_bind_stopped. simpl. apply emits_ret.
Qed.

Lemma emits_poll_stop_stopped (fuel : nat) : emits P (poll_stop w self fuel).
Proof using Hstop.
  destruct fuel as [|fuel]; simpl; [apply emits_out_of_fuel|].
  apply emits_bind_stopped. apply emits_ret.
Qed.

Lemma halts_bind_stopped {B} (k : bool -> M B) :
  halts (k true) -> halts (bind (stop_requested w self) k).
Proof using Hstop. intros Hk s. rewrite bind_stop_requested. apply Hk. Qed.

Lemma halts_wait_done_stopped (fuel : nat) (h : task) (timeout : Q)
    (elapsed : Z) :
  (0 < fuel)%nat -> halts (wait_done w self fuel h timeout elapsed).
Proof using Hstop.
  destruct fuel as [|fuel]; [lia|]. intros _. simpl.
  apply halts_bind_stopped. simpl. apply halts_ret.
Qed.

Lemma halts_poll_stop_stopped (fuel : nat) :
  (0 < fuel)%nat -> halts (poll_stop w self fuel).
Proof using Hstop.
  destruct fuel as [|fuel]; [lia|]. intros _. simpl.
  apply halts_bind_stopped. apply halts_ret.
Qed.

(** The rules of [emits], from a frame without main task. *)

Lemma unbound_silent {A} (m : M A) :
  (forall s, history (m s).2 = history s
             /\ local_t (m s).2 = local_t s
             /\ local_t_zero (m s).2 = local_t_zero s) ->
  emits_unbound P m.
Proof.
  intros H s [[Ht Hz] Hn]. destruct (H s) as (Hh & Ht' & Hz').
  split; [split; [split|]; congruence|].
  exists []. rewrite app_nil_r. auto.
Qed.

Lemma unbound_ret {A} (a : A) : emits_unbound P (ret a).
Proof. apply unbound_silent. intros s. auto. Qed.

Lemma unbound_lift {A} (x : exn A) : emits_unbound P (lift x).
Proof. apply unbound_silent. intros s. destruct x; auto. Qed.

Lemma unbound_out_of_fuel {A} : emits_unbound P (@out_of_fuel A).
Proof. apply unbound_silent. intros s. auto. Qed.

Lemma unbound_assign_t_None : emits_unbound P (assign_t None).
Proof.
  intros s [[Ht Hz] Hn]. split.
  - split; [split; simpl; auto | simpl; discriminate].
  - exists []. simpl. rewrite app_nil_r. auto.
Qed.

Lemma unbound_log (e : event) : P e -> emits_unbound P (log e).
Proof.
  intros He s Hs. split; [exact Hs|]. exists [e]. simpl. auto.
Qed.

Lemma unbound_call (c : daq_call) :
  (forall r, P (daq c r)) -> emits_unbound P (call w c).
Proof.
  intros Hc s Hs. unfold call.
  destruct (driver w (history s) c) as [msg|]; simpl;
    (split; [exact Hs|]); eexists; split; eauto.
Qed.

Lemma unbound_bind {A B} (m : M A) (k : A -> M B) :
  emits_unbound P m -> (forall a, emits_unbound P (k a)) ->
  emits_unbound P (bind m k).
Proof.
  intros Hm Hk s Hs. unfold bind.
  destruct (Hm s Hs) as (Hwf & evs & Hh & HP).
  destruct (m s) as [[a|msg|] s']; simpl in *; eauto.
  destruct (Hk a s' Hwf) as (Hwf' & evs' & Hh' & HP').
  split; [exact Hwf'|]. exists (evs ++ evs').
  rewrite Hh', Hh, app_assoc. split; [reflexivity|].
  apply Forall_app; auto.
Qed.

Lemma unbound_bind_stopped {B} (k : bool -> M B) :
  emits_unbound P (k true) ->
  emits_unbound P (bind (stop_requested w self) k).
Proof using Hstop.
  intros Hk s Hs. rewrite bind_stop_requested. now apply Hk.
Qed.

Lemma unbound_bind_read_t {B} (k : option (option task) -> M B) :
  emits_unbound P (k None) -> emits_unbound P (k (Some None)) ->
  emits_unbound P (bind read_t k).
Proof.
  intros H1 H2 s Hs. unfold bind, read_t.
  destruct Hs as [[[Ht|[Ht|Ht]] Hz] Hn]; [| |congruence]; rewrite Ht.
  - apply H1. split; [split; auto | congruence].
  - apply H2. split; [split; auto | congruence].
Qed.

Lemma unbound_wait_done (fuel : nat) (h : task) (timeout : Q) (elapsed : Z) :
  emits_unbound P (wait_done w self fuel h timeout elapsed).
Proof using Hstop.
  destruct fuel as [|fuel]; simpl; [apply unbound_out_of_fuel|].
  apply unbound_bind_stopped. simpl. apply unbound_ret.
Qed.

End Stopped.

Ltac stopped_step H :=
  lazymatch goal with
  | |- emits _ (bind (stop_requested _ _) _) =>
      apply (emits_bind_stopped _ _ H)
  | |- emits _ (wait_done _ _ _ _ _ _) => apply (emits_wait_done_stopped _ _ H)
  | |- emits _ (poll_stop _ _ _) => apply (emits_poll_stop_stopped _ _ H)
  | |- emits _ (bind read_t _) =>
      apply emits_bind_read_t; intros ? [->|[->| ->]]
  | |- emits _ (bind _ _) => apply emits_bind; [|intros ?]
  | |- emits _ (ret _) => apply emits_ret
  | |- emits _ (lift _) => apply emits_lift
  | |- emits _ (log _) => apply emits_log; split; reflexivity
  | |- emits _ (call _ _) => apply emits_call; intros ?; split; reflexivity
  | |- emits _ (assign_t None) => apply emits_assign_t_None
  | |- emits _ (assign_t (Some t_main)) => apply emits_assign_t_main
  | |- emits _ (start_main _ _ _ _ _) => unfold start_main
  | |- emits _ (if true then _ else _) => cbv beta iota
  | |- emits _ (if false then _ else _) => cbv beta iota
  | |- emits _ (if ?b then _ else _) => destruct b eqn:?
  | |- emits _ (match ?x with _ => _ end) => destruct x
  | |- halts (bind (stop_requested _ _) _) =>
      apply (halts_bind_stopped _ _ H)
  | |- halts (wait_done _ _ _ _ _ _) =>
      apply (halts_wait_done_stopped _ _ H); assumption
  | |- halts (poll_stop _ _ _) =>
      apply (halts_poll_stop_stopped _ _ H); assumption
  | |- halts _ => halts_step
  | |- emits_unbound _ (bind (stop_requested _ _) _) =>
      apply (unbound_bind_stopped _ _ H)
  | |- emits_unbound _ (wait_done _ _ _ _ _ _) =>
      apply (unbound_wait_done _ _ H)
  | |- emits_unbound _ (bind read_t _) => apply unbound_bind_read_t
  | |- emits_unbound _ (bind _ _) => apply unbound_bind; [|intros ?]
  | |- emits_unbound _ (ret _) => apply unbound_ret
  | |- emits_unbound _ (lift _) => apply unbound_lift
  | |- emits_unbound _ (log _) => apply unbound_log; split; reflexivity
  | |- emits_unbound _ (call _ _) =>
      apply unbound_call; intros ?; split; reflexivity
  | |- emits_unbound _ (assign_t None) => apply unbound_assign_t_None
  | |- emits_unbound _ (if true then _ else _) => cbv beta iota
  | |- emits_unbound _ (if false then _ else _) => cbv beta iota
  end.

Lemma uses_t_zero_quiet (e : event) :
  uses_t_zero e = true -> waits e = false /\ on_t_main e = false.
Proof.
  unfold uses_t_zero. destruct e as [| | |c r|s]; simpl; try discriminate.
  destruct c as [h|h ?|h ? ? ?|h ? ? ?|h|h|h|h ?|h ?]; destruct h; simpl;
    try discriminate; auto.
Qed.

Lemma shutdown_sequence_no_wait (sd : list event) :
  shutdown_sequence sd -> Forall (fun e => waits e = false) sd.
Proof.
  intros (rel & r & zs & -> & Hrel & Hzs).
  apply Forall_app. split; [|repeat constructor].
  - eapply Forall_weaken; [|exact Hrel]. intros e He.
    destruct e as [| | |c o|s]; try discriminate.
    destruct c as [h|h ?|h ? ? ?|h ? ? ?|h|h|h|h ?|h ?]; try discriminate;
      reflexivity.
  - eapply Forall_weaken; [|exact Hzs]. intros e He.
    now apply uses_t_zero_quiet in He.
Qed.

Section StoppedRuns.
Variable w : world.
Variable self : DAQWorker.
Hypothesis Hav : DAQ_AVAILABLE w = true.
Hypothesis Hstop : always_stopped w self.

Lemma generate_stopped_emits (fuel : nat) :
  emits (fun e => generating e = true /\ waits e = false)
        (generate w self fuel).
Proof using Hav Hstop.
  unfold generate. rewrite Hav. cbv zeta. simpl negb. cbv iota.
  repeat stopped_step Hstop.
Qed.

Lemma generate_stopped_halts (fuel : nat) :
  (0 < fuel)%nat -> halts (generate w self fuel).
Proof using Hstop.
  intros Hpos. unfold generate. cbv zeta.
  repeat stopped_step Hstop.
Qed.

(** X9: when the stop was requested before the run starts, the run never
    waits: with any fuel it ends, without a single wait for the end of the
    delay task or of the main task and without polling sleep. *)
Theorem stopped_before_start_never_waits (fuel : nat) :
  (0 < fuel)%nat ->
  exists tr,
    execute w self fuel = Finished tr
    /\ Forall (fun e => waits e = false) tr.
Proof using Hav Hstop.
  intros Hpos.
  pose proof (generate_stopped_halts fuel Hpos fresh) as Hh.
  destruct (generate_stopped_emits fuel fresh (fresh_framed))
    as (_ & gen & Hg & Hgen).
  pose proof (execute_shape w self fuel) as H.
  destruct (execute w self fuel) as [tr|msg tr|]; [|tauto|congruence].
  exists tr. split; [reflexivity|].
  destruct H as (sd & -> & Hsd). rewrite Hav in Hsd. rewrite Hg.
  simpl. repeat (apply Forall_app; split).
  - eapply Forall_weaken; [|exact Hgen]. intros e He. apply He.
  - destruct (reported_cases (generate w self fuel fresh).1) as [E|[msg E]];
      rewrite E; repeat constructor.
  - now apply shutdown_sequence_no_wait.
  - repeat constructor.
Qed.

(** In infinite mode with an initial delay, from a frame without main
    task, the [try] block of a stopped run creates no main task. *)
Lemma generate_stopped_unbound (fuel : nat) :
  infinite self = true ->
  (0 < initial_delay_samples self)%Z ->
  emits_unbound (fun e => generating e = true /\ on_t_main e = false)
                (generate w self fuel).
Proof using Hav Hstop.
  intros Hinf Hids. unfold generate. rewrite Hav, Hinf. cbv zeta.
  simpl negb. cbv iota.
  assert (E1 : (0 <? initial_delay_samples self)%Z = true)
    by (apply Z.ltb_lt; lia).
  assert (E2 : (initial_delay_samples self =? 0)%Z = false)
    by (apply Z.eqb_neq; lia).
  rewrite E1, E2. simpl andb. cbv iota.
  repeat stopped_step Hstop.
Qed.

(** X10: in infinite mode with an initial delay, when the stop was
    requested before the run starts, the run ends without any event on the
    main task: the trigger train is never created, started or released. *)
Theorem stopped_before_start_skips_main_task (fuel : nat) :
  infinite self = true ->
  (0 < initial_delay_samples self)%Z ->
  (0 < fuel)%nat ->
  exists tr,
    execute w self fuel = Finished tr
    /\ Forall (fun e => on_t_main e = false) tr.
Proof using Hav Hstop.
  intros Hinf Hids Hpos.
  pose proof (generate_stopped_halts fuel Hpos fresh) as Hh.
  assert (Hfresh : no_task_frame fresh)
    by (split; [apply fresh_framed | discriminate]).
  destruct (generate_stopped_unbound fuel Hinf Hids fresh Hfresh)
    as ([_ Hnt] & gen & Hg & Hgen).
  assert (Ht : local_t (after_generate w self fuel) <> Some (Some t_main))
    by exact Hnt.
  destruct (safe_shutdown_unbound w self _
              (after_generate_framed w self fuel) Ht)
    as (s2 & r & zs & Hsd & He & HP).
  eexists. split; [exact (execute_via_shutdown w self fuel s2 Hav Hh Hsd)|].
  rewrite He. unfold after_generate at 1. simpl history. rewrite Hg. simpl.
  repeat (apply Forall_app; split).
  - eapply Forall_weaken; [|exact Hgen]. intros e He'. apply He'.
  - destruct (reported_cases (generate w self fuel fresh).1) as [E|[msg E]];
      rewrite E; repeat constructor.
  - repeat constructor. eapply Forall_weaken; [|exact HP]. intros e He'.
    now apply uses_t_zero_quiet in He'.
  - repeat constructor.
Qed.

End StoppedRuns.

Lemma stopped_before_start_never_waits_witness :
  exists tr,
    execute quiet_world (stop delayed_train) 1 = Finished tr
    /\ Forall (fun e => waits e = false) tr.
Proof.
  apply (stopped_before_start_never_waits quiet_world (stop delayed_train)).
  - reflexivity.
  - intros h. reflexivity.
  - lia.
Defined.

Lemma stopped_before_start_skips_main_task_witness :
  exists tr,
    execute quiet_world (stop delayed_train) 1 = Finished tr
    /\ Forall (fun e => on_t_main e = false) tr.
Proof.
  apply (stopped_before_start_skips_main_task quiet_world
           (stop delayed_train)).
  - reflexivity.
  - intros h. reflexivity.
  - reflexivity.
  - vm_compute. reflexivity.
  - lia.
Defined.

(* --------------------------------------------------------------------- *)
(** ** The bounded wait *)
(* --------------------------------------------------------------------- *)

(** X11: the loop that waits for a task polls it one second at a time: it
    makes a series of waits that time out (or fail), stops at the first
    wait that returns, never raises, and makes at most
    ceil(timeout) - elapsed waits in all. *)
Theorem wait_done_polls (w : world) (self : DAQWorker) (fuel : nat)
    (h : task) (timeout : Q) (elapsed : Z) (s : state) :
  exists (timeouts : list string) (done : bool),
    history (wait_done w self fuel h timeout elapsed s).2
    = history s
      ++ map (fun msg => daq (WaitUntilTaskDone h 1) (Some msg)) timeouts
      ++ (if done then [daq (WaitUntilTaskDone h 1) None] else [])
    /\ (Z.of_nat (length timeouts) + (if done then 1 else 0)
        <= Z.max 0 (Qceiling timeout - elapsed))%Z
    /\ (forall msg, (wait_done w self fuel h timeout elapsed s).1
                    <> Raise msg).
Proof.
  revert elapsed s. induction fuel as [|fuel IH]; intros elapsed s.
  { exists [], false. simpl. rewrite app_nil_r.
    split; [reflexivity|]. split; [lia | intros msg; discriminate]. }
  remember (wait_done w self (S fuel) h timeout elapsed s) as out eqn:Hout.
  simpl in Hout. unfold bind at 1, stop_requested at 1 in Hout.
  destruct (negb (_stop_requested self || stop_set w (history s))
            && Qlt_b (inject_Z elapsed) timeout) eqn:E.
  2:{ subst out. exists [], false. simpl. rewrite app_nil_r.
      split; [reflexivity|]. split; [lia | intros msg; discriminate]. }
  apply andb_true_iff in E as [_ E]. apply Qlt_b_iff in E.
  assert (Hc : (elapsed < Qceiling timeout)%Z).
  { rewrite Zlt_Qlt. eapply Qlt_le_trans; [exact E|]. apply Qle_ceiling. }
  unfold bind at 1, try_except at 1, bind at 1, call at 1 in Hout.
  destruct (driver w (history s) (WaitUntilTaskDone h 1)) as [msg|].
  - unfold ret at 1 in Hout. cbv beta iota in Hout.
    destruct (IH (elapsed + 1)%Z
                 (record (daq (WaitUntilTaskDone h 1) (Some msg)) s))
      as (timeouts & done & Hh & Hb & Hr).
    rewrite <- Hout in Hh, Hr.
    exists (msg :: timeouts), done.
    split; [|split; [|exact Hr]].
    + rewrite Hh. simpl. rewrite <- app_assoc. reflexivity.
    + simpl length. lia.
  - subst out. exists [], true. simpl.
    split; [reflexivity|]. split; [lia | intros msg; discriminate].
Qed.

(* --------------------------------------------------------------------- *)
(** ** Waits that time out are not errors *)
(* --------------------------------------------------------------------- *)

Lemma np_zeros_nonneg (n : Z) :
  (0 <= n)%Z -> np_zeros n = Val (replicate (Z.to_nat n) 0).
Proof. intros H. unfold np_zeros. destruct (Z.ltb_spec n 0); [lia|auto]. Qed.

Lemma finite_data_valid (self : DAQWorker) (cycle : list Q) :
  valid self ->
  finite_data self cycle
  = Val (replicate (Z.to_nat (initial_delay_samples self)) 0
         ++ repeat_array cycle (Z.to_nat (nb_triggers self))).
Proof.
  intros Hv. destruct (valid_counts self Hv) as (_ & _ & Hd).
  assert (Hn : (0 < nb_triggers self)%Z) by apply Hv.
  unfold finite_data. rewrite np_zeros_nonneg by exact Hd.
  rewrite np_tile_nonneg by lia. reflexivity.
Qed.

Section NoError.
Variable w : world.
Variable self : DAQWorker.
Hypothesis Hdrv : forall h c, is_wait c = false -> driver w h c = None.

Lemma returns_never_raises {A} (m : M A) : returns m -> never_raises m.
Proof. intros H s msg E. destruct (H s) as [a Ha]. congruence. Qed.

Lemma nr_ret {A} (a : A) : never_raises (ret a).
Proof. intros s msg. discriminate. Qed.

Lemma nr_lift_Val {A} (a : A) : never_raises (lift (Val a)).
Proof. intros s msg. discriminate. Qed.

Lemma nr_log (e : event) : never_raises (log e).
Proof. intros s msg. discriminate. Qed.

Lemma nr_assign_t (v : option task) : never_raises (assign_t v).
Proof. intros s msg. discriminate. Qed.

Lemma nr_read_t : never_raises read_t.
Proof. intros s msg. discriminate. Qed.

Lemma nr_stop_requested : never_raises (stop_requested w self).
Proof. intros s msg. discriminate. Qed.

Lemma nr_call (c : daq_call) : is_wait c = false -> never_raises (call w c).
Proof using Hdrv.
  intros Hc s msg. unfold call. rewrite Hdrv by exact Hc. discriminate.
Qed.

Lemma nr_bind {A B} (m : M A) (k : A -> M B) :
  never_raises m -> (forall a, never_raises (k a)) -> never_raises (bind m k).
Proof.
  intros Hm Hk s msg. unfold bind. specialize (Hm s).
  destruct (m s) as [[a|msg'|] s']; simpl in *;
    [apply Hk | now destruct (Hm msg') | discriminate].
Qed.

Lemma nr_try_except {A} (m : M A) (h : string -> M A) :
  (forall msg, never_raises (h msg)) -> never_raises (try_except m h).
Proof.
  intros Hh s msg. unfold try_except.
  destruct (m s) as [[a|msg'|] s']; simpl; [discriminate | apply Hh |
                                            discriminate].
Qed.

Lemma nr_wait_done (fuel : nat) (h : task) (timeout : Q) (elapsed : Z) :
  never_raises (wait_done w self fuel h timeout elapsed).
Proof.
  revert elapsed. induction fuel as [|fuel IH]; intros elapsed; simpl;
    [intros s msg; discriminate|].
  apply nr_bind; [apply nr_stop_requested|]. intros stopped.
  destruct (negb stopped && Qlt_b (inject_Z elapsed) timeout);
    [|apply nr_ret].
  apply nr_bind; [apply nr_try_except; intros; apply nr_ret|].
  intros [|]; [apply nr_ret | apply IH].
Qed.

Lemma nr_poll_stop (fuel : nat) : never_raises (poll_stop w self fuel).
Proof.
  induction fuel as [|fuel IH]; simpl; [intros s msg; discriminate|].
  apply nr_bind; [apply nr_stop_requested|]. intros [|]; [apply nr_ret|].
  apply nr_bind; [apply nr_log | intros; exact IH].
Qed.

End NoError.

Ltac nr_step H :=
  lazymatch goal with
  | |- never_raises (bind _ _) => apply nr_bind; [|intros ?]
  | |- never_raises (ret _) => apply nr_ret
  | |- never_raises (lift (Val _)) => apply nr_lift_Val
  | |- never_raises (log _) => apply nr_log
  | |- never_raises (assign_t _) => apply nr_assign_t
  | |- never_raises read_t => apply nr_read_t
  | |- never_raises (stop_requested _ _) => apply nr_stop_requested
  | |- never_raises (call _ _) => apply (nr_call _ H); reflexivity
  | |- never_raises (wait_done _ _ _ _ _ _) => apply nr_wait_done
  | |- never_raises (poll_stop _ _ _) => apply nr_poll_stop
  | |- never_raises (start_main _ _ _ _ _) => unfold start_main
  | |- never_raises (if ?b then _ else _) => destruct b
  | |- never_raises (match ?x with _ => _ end) => destruct x
  end.

(** With valid parameters and a driver that only fails in
    [WaitUntilTaskDone], the [try] block does not raise. *)
Lemma generate_never_raises (w : world) (self : DAQWorker) (fuel : nat) :
  valid self ->
  (forall h c, is_wait c = false -> driver w h c = None) ->
  never_raises (generate w self fuel).
Proof.
  intros Hv Hdrv. destruct (valid_counts self Hv) as (_ & _ & Hd).
  unfold generate. cbv zeta.
  rewrite (Sig_cycle_valid self Hv), (np_zeros_nonneg _ Hd).
  destruct (negb (DAQ_AVAILABLE w)); [apply nr_log|].
  apply nr_bind; [apply nr_lift_Val|]. intros cycle.
  rewrite (finite_data_valid self cycle Hv).
  repeat nr_step Hdrv.
Qed.



(* --------------------------------------------------------------------- *)
(** ** A finite run without incident *)
(* --------------------------------------------------------------------- *)

Section Ideal.
Variable w : world.
Variable self : DAQWorker.
Hypothesis Hdrv : forall h c, driver w h c = None.

Lemma call_ok (c : daq_call) (s : state) :
  call w c s = (Ret tt, record (daq c None) s).
Proof using Hdrv. unfold call. now rewrite Hdrv. Qed.

Lemma start_main_ok (mode : sample_mode) (data : list Q) (s : state) :
  start_main w self mode (Z.of_nat (length data)) data s
  = (Ret tt,
     {| history := history s ++ main_started self mode data;
        local_t := Some (Some t_main);
        local_t_zero := local_t_zero s |}).
Proof using Hdrv.
  unfold start_main, bind, assign_t, main_started.
  repeat (rewrite call_ok; cbv beta iota).
  unfold record. simpl. rewrite <- !app_assoc. reflexivity.
Qed.

Lemma wait_done_first (fuel : nat) (h : task) (timeout : Q) (s : state) :
  never_stopped w self -> 0 < timeout ->
  wait_done w self (S fuel) h timeout 0 s
  = (Ret tt, record (daq (WaitUntilTaskDone h 1) None) s).
Proof using Hdrv.
  intros [Hpre Hset] Hto. simpl. unfold bind at 1, stop_requested.
  rewrite Hpre, Hset.
  assert (E : Qlt_b (inject_Z 0) timeout = true) by now apply Qlt_b_iff.
  rewrite E. simpl. unfold bind, try_except. rewrite call_ok. reflexivity.
Qed.

End Ideal.

Lemma finite_timeout_pos (self : DAQWorker) : valid self -> 0 < finite_timeout self.
Proof.
  intros (Hr & Ht & Hi & Hd & Hn). unfold finite_timeout.
  assert (H : 0 <= inject_Z (nb_triggers self)
                   * (inter_trigger_interval self + trigger_duration self)).
  { apply Qmult_le_0_compat; [|lra].
    change 0 with (inject_Z 0). rewrite <- Zle_Qle. lia. }
  lra.
Qed.

Lemma generate_finite_ok (w : world) (self : DAQWorker) (fuel : nat) :
  valid self -> infinite self = false -> DAQ_AVAILABLE w = true ->
  (forall h c, driver w h c = None) -> never_stopped w self ->
  generate w self (S fuel) fresh
  = (Ret tt,
     {| history := main_started self DAQmx_Val_FiniteSamps (finite_buffer self)
                   ++ [ started_emit;
                        daq (WaitUntilTaskDone t_main 1) None;
                        daq (StopTask t_main) None;
                        daq (ClearTask t_main) None ];
        local_t := Some (Some t_main);
        local_t_zero := None |}).
Proof.
  intros Hv Hfin Hav Hdrv Hns.
  unfold generate. rewrite Hav, Hfin, (Sig_cycle_valid self Hv).
  cbv zeta. cbn [negb andb]. cbv beta iota.
  unfold bind at 1, lift at 1.
  unfold bind at 1, assign_t at 1.
  rewrite (finite_data_valid self _ Hv).
  unfold bind at 1. unfold bind at 1, lift at 1.
  fold (cycle_buffer self). fold (finite_buffer self).
  rewrite (start_main_ok w self Hdrv). cbv beta iota.
  unfold bind at 1, log at 1. unfold bind at 1, read_t at 1.
  cbn [local_t record]. unfold bind at 1.
  rewrite (wait_done_first w self Hdrv) by (try assumption; now apply finite_timeout_pos).
  unfold bind. rewrite !(call_ok w Hdrv). 
  unfold record. cbn [history local_t local_t_zero fresh].
  rewrite <- !app_assoc. reflexivity.
Qed.

Lemma release_t_ok (w : world) (s : state) :
  (forall h c, driver w h c = None) ->
  local_t s = Some (Some t_main) ->
  release_t w s
  = (Ret tt, record (daq (ClearTask t_main) None)
               (record (daq (StopTask t_main) None) s)).
Proof.
  intros Hdrv Ht. unfold release_t, bind, read_t, try_except. rewrite Ht.
  rewrite (call_ok w Hdrv). cbv beta iota.
  rewrite (call_ok w Hdrv). reflexivity.
Qed.



(* --------------------------------------------------------------------- *)
(** ** What is written to the hardware *)
(* --------------------------------------------------------------------- *)

Lemma emits_bind_lift_Val {A B} (P : event -> Prop) (a : A) (k : A -> M B) :
  emits P (k a) -> emits P (bind (lift (Val a)) k).
Proof. intros Hk s Hs. unfold bind, lift. now apply Hk. Qed.

Ltac written_step Hinf :=
  lazymatch goal with
  | |- emits _ (bind (lift (Val _)) _) => apply emits_bind_lift_Val
  | |- emits _ (bind read_t _) =>
      apply emits_bind_read_t; intros ? [->|[->| ->]]
  | |- emits _ (bind _ _) => apply emits_bind; [|intros ?]
  | |- emits _ (try_except _ _) => apply emits_try_except; [|intros ?]
  | |- emits _ (ret _) => apply emits_ret
  | |- emits _ (log _) => apply emits_log; exact I
  | |- emits _ (call _ _) =>
      apply emits_call; intros ?; unfold as_computed; rewrite ?Hinf;
      repeat split; reflexivity
  | |- emits _ (stop_requested _ _) => apply emits_stop_requested
  | |- emits _ (assign_t None) => apply emits_assign_t_None
  | |- emits _ (assign_t (Some t_main)) => apply emits_assign_t_main
  | |- emits _ (wait_done _ _ _ _ _ _) =>
      apply emits_wait_done; intros ?; exact I
  | |- emits _ (poll_stop _ _ _) => apply emits_poll_stop; exact I
  | |- emits _ (start_main _ _ _ _ _) => unfold start_main
  | |- emits _ (if true then _ else _) => cbv beta iota
  | |- emits _ (if false then _ else _) => cbv beta iota
  | |- emits _ (if ?b then _ else _) => destruct b
  | |- emits _ (match ?x with _ => _ end) => destruct x
  end.

Lemma generate_as_computed (w : world) (self : DAQWorker) (fuel : nat) :
  valid self ->
  emits (as_computed self) (generate w self fuel).
Proof.
  intros Hv. destruct (valid_counts self Hv) as (_ & _ & Hd).
  unfold generate. cbv zeta.
  rewrite (Sig_cycle_valid self Hv), (np_zeros_nonneg _ Hd).
  fold (cycle_buffer self).
  destruct (negb (DAQ_AVAILABLE w)); [apply emits_log; exact I|].
  apply emits_bind_lift_Val.
  rewrite (finite_data_valid self (cycle_buffer self) Hv).
  fold (finite_buffer self).
  destruct (infinite self) eqn:Hinf; repeat written_step Hinf.
Qed.

(** X14: with valid parameters, every buffer a run that ends has handed
    to the driver is one the worker computed: the delay task is a finite
    playback of [initial_delay_samples] zeros, and the main task is, in
    infinite mode, a continuous playback of the one-cycle buffer and, in
    finite mode, a finite playback of the delay followed by [nb_triggers]
    cycles; the sample counts declared to the driver are the lengths of
    those buffers. *)
Theorem run_writes_computed_buffers (w : world) (self : DAQWorker)
    (fuel : nat) (tr : list event) :
  valid self ->
  execute w self fuel = Finished tr ->
  Forall (as_computed self) tr
  /\ Z.of_nat (length (cycle_buffer self)) = samples_per_cycle self
  /\ Z.of_nat (length (replicate (Z.to_nat (initial_delay_samples self))
                                 (0 : Q)))
     = initial_delay_samples self.
Proof.
  intros Hv Hex. destruct (valid_counts self Hv) as (Ht & Hi & Hd).
  split; [|split].
  2:{ unfold cycle_buffer, samples_per_cycle.
      rewrite length_app, !length_replicate. lia. }
  2:{ rewrite length_replicate. lia. }
  pose proof (execute_shape w self fuel) as H. rewrite Hex in H.
  destruct H as (sd & -> & Hsd).
  destruct (generate_as_computed w self fuel Hv fresh (fresh_framed))
    as (_ & gen & -> & Hgen).
  simpl. repeat (apply Forall_app; split).
  - exact Hgen.
  - destruct (reported_cases (generate w self fuel fresh).1) as [E|[msg E]];
      rewrite E; repeat constructor.
  - destruct (DAQ_AVAILABLE w); [|subst sd; constructor].
    destruct Hsd as (rel & r & zs & -> & Hrel & Hzs).
    apply Forall_app. split; [|repeat constructor].
    + eapply Forall_weaken; [|exact Hrel]. intros e He.
      destruct e as [| | |c o|s]; try exact I.
      destruct c as [h|h ?|h ? ? ?|h ? ? ?|h|h|h|h ?|h ?]; try exact I;
        discriminate.
    + eapply Forall_weaken; [|exact Hzs]. intros e He.
      unfold uses_t_zero in He.
      destruct e as [| | |c o|s]; try exact I.
      destruct c as [h|h ?|h ? ? ?|h ? ? ?|h|h|h|h ?|h ?]; try exact I;
        destruct h; try exact I; discriminate.
  - repeat constructor.
Qed.

Lemma run_writes_computed_buffers_witness :
  Forall (as_computed short_train) (finite_run_events quiet_world short_train)
  /\ Z.of_nat (length (cycle_buffer short_train))
     = samples_per_cycle short_train
  /\ Z.of_nat (length (replicate
                         (Z.to_nat (initial_delay_samples short_train))
                         (0 : Q)))
     = initial_delay_samples short_train.
Proof.
  apply (run_writes_computed_buffers quiet_world short_train 1).
  - unfold valid, short_train; simpl. repeat split; try lra; lia.
  - vm_compute. reflexivity.
Defined.

(* --------------------------------------------------------------------- *)
(** ** The window: starting a run and handling its signals *)
(* --------------------------------------------------------------------- *)

(** X15: [start_generation] does nothing while a worker thread runs;
    otherwise it creates a fresh worker, whose stop flag is not set
    whatever was requested before, on the path built from the device and
    channel texts, and it keeps for the indicator and the saved record the
    very parameters the worker plays: the same rate, durations, mode and
    count, and a device and channel from which [build_channel_path] gives
    the worker's path again. *)
Theorem start_generation_consistent
    (ui : Window.inputs) (win : TriggerGeneratorWindow) :
  Window.start_generation true ui win = win
  /\ exists wk p,
       worker (Window.start_generation false ui win) = Some wk
       /\ params (Window.start_generation false ui win) = Some p
       /\ worker (Window.start_generation false ui (stop_generation win))
          = Some wk
       /\ _stop_requested wk = false
       /\ device wk = build_channel_path (p_device p) (p_channel p)
       /\ sampling_rate wk = p_sampling_rate p
       /\ trigger_duration wk = p_trigger p
       /\ inter_trigger_interval wk = p_interval p
       /\ initial_trigger_delay wk = p_initial_trigger_delay p
       /\ infinite wk = p_infinite p
       /\ nb_triggers wk = p_nb_triggers p.
Proof.
  split; [reflexivity|]. eexists _, _.
  split; [reflexivity|]. split; [reflexivity|]. split; [reflexivity|].
  split; [reflexivity|]. split; [|repeat split].
  simpl. unfold build_channel_path. now rewrite !strip_idempotent.
Qed.

Section Handling.
Variable clock : nat -> Q * pystr.
Variable exp_time : pystr.

Lemma handle_app (i : nat) (a b : list event) (ss : Window.session) :
  Window.handle clock exp_time i (a ++ b) ss
  = Window.handle clock exp_time (i + length a) b
      (Window.handle clock exp_time i a ss).
Proof.
  revert i ss. induction a as [|e a IH]; intros i ss; simpl.
  - now rewrite Nat.add_0_r.
  - rewrite IH. f_equal. lia.
Qed.

Lemma handle_quiet (i : nat) (l : list event) (ss : Window.session) :
  Forall (fun e => Window.is_signal e = false) l ->
  Window.handle clock exp_time i l ss = ss.
Proof.
  intros H. revert i ss. induction H as [|e l He _ IH]; intros i ss; simpl;
    [reflexivity|].
  assert (Hsame : Window.on_event clock exp_time i e ss = ss)
    by (destruct e; try discriminate; reflexivity).
  rewrite Hsame. apply IH.
Qed.

(** Before the terminal signals, only the start time can change. *)
Lemma handle_running (i : nat) (pre : list event) (ss : Window.session) :
  Forall (fun e => is_terminal e = false) pre ->
  let ss' := Window.handle clock exp_time i pre ss in
  Window.files ss' = Window.files ss
  /\ Window.dialogs ss' = Window.dialogs ss
  /\ params (Window.window ss') = params (Window.window ss)
  /\ (state_start_time (Window.window ss') = None
      <-> state_start_time (Window.window ss) = None
          /\ existsb Window.is_started pre = false).
Proof.
  intros H. revert i ss.
  induction H as [|e l He _ IH]; intros i ss; simpl.
  { tauto. }
  destruct (IH (S i) (Window.on_event clock exp_time i e ss))
    as (Hf & Hd & Hp & Hs).
  rewrite Hf, Hd, Hp, Hs.
  destruct e; try discriminate; simpl;
    (split; [|split; [|split]]; try reflexivity);
    split; intros [H1 H2]; try discriminate; split; assumption.
Qed.

End Handling.

(** The signals of a run that ends: none is terminal before the error
    signal, if any, and the shutdown sequence emits none. *)
Lemma execute_signals (w : world) (self : DAQWorker) (fuel : nat)
    (tr : list event) :
  execute w self fuel = Finished tr ->
  exists pre err sd,
    tr = pre ++ err ++ sd ++ [finished_emit]
    /\ Forall (fun e => is_terminal e = false) pre
    /\ (err = [] \/ exists msg, err = [error_emit msg])
    /\ Forall (fun e => Window.is_signal e = false) sd.
Proof.
  intros Hex. pose proof (execute_shape w self fuel) as H.
  rewrite Hex in H. destruct H as (sd & -> & Hsd).
  destruct (DAQ_AVAILABLE w) eqn:Hav.
  - exists (history (generate w self fuel fresh).2),
           (reported (generate w self fuel fresh).1), sd.
    split; [reflexivity|]. split; [|split; [apply reported_cases|]].
    + eapply Forall_weaken; [|exact (before_shutdown w self fuel Hav)].
      intros e He. apply generating_only in He as (_ & _ & _ & Hf & Herr).
      unfold is_terminal. now rewrite Hf, Herr.
    + destruct Hsd as (rel & r & zs & -> & Hrel & Hzs).
      apply Forall_app. split; [|repeat constructor].
      * eapply Forall_weaken; [|exact Hrel]. intros e He.
        destruct e; try discriminate; reflexivity.
      * eapply Forall_weaken; [|exact Hzs]. intros e He.
        destruct e; try discriminate; reflexivity.
  - exists [], [error_emit "PyDAQmx is not installed."], [].
    subst sd. unfold generate. rewrite Hav. simpl.
    split; [reflexivity|]. split; [constructor|].
    split; [right; eauto | constructor].
Qed.

(** X16: handled by the window from a state in which no run is under way,
    the signals of a run that ends leave the window without start time,
    write one record when the started signal was emitted and none
    otherwise (also when the error signal and the finished signal both run
    the clean-up), and show one dialog per error signal. *)
Theorem one_record_per_started_run
    (w : world) (self : DAQWorker) (fuel : nat) (tr : list event)
    (clock : nat -> Q * pystr) (exp_time : pystr)
    (ss : Window.session) (p : worker_params) :
  execute w self fuel = Finished tr ->
  state_start_time (Window.window ss) = None ->
  params (Window.window ss) = Some p ->
  let ss' := Window.handle clock exp_time 0 tr ss in
  state_start_time (Window.window ss') = None
  /\ length (Window.files ss')
     = (length (Window.files ss)
        + if existsb Window.is_started tr then 1 else 0)%nat
  /\ length (Window.dialogs ss')
     = (length (Window.dialogs ss) + occurrences is_error tr)%nat.
Proof.
  intros Hex Hnone Hp.
  destruct (execute_signals w self fuel tr Hex)
    as (pre & err & sd & -> & Hpre & Herr & Hsd).
  cbv zeta. rewrite !handle_app.
  rewrite (handle_quiet clock exp_time _ sd) by exact Hsd.
  destruct (handle_running clock exp_time 0 pre ss Hpre)
    as (Hf & Hd & Hpp & Hs).
  set (ss1 := Window.handle clock exp_time 0 pre ss) in *.
  assert (Hst : existsb Window.is_started (pre ++ err ++ sd ++ [finished_emit])
                = existsb Window.is_started pre).
  { rewrite !existsb_app.
    assert (E1 : existsb Window.is_started err = false)
      by (destruct Herr as [->|[msg ->]]; reflexivity).
    assert (E2 : existsb Window.is_started sd = false).
    { clear -Hsd. induction Hsd as [|e l He _ IH]; [reflexivity|].
      simpl. rewrite IH. now destruct e. }
    rewrite E1, E2. simpl. now rewrite !orb_false_r. }
  assert (Herrs : occurrences is_error (pre ++ err ++ sd ++ [finished_emit])
                  = length err).
  { rewrite !occurrences_app.
    rewrite (occurrences_none is_error pre), (occurrences_none is_error sd).
    - destruct Herr as [->|[msg ->]]; reflexivity.
    - eapply Forall_weaken; [|exact Hsd]. intros e He. now destruct e.
    - eapply Forall_weaken; [|exact Hpre]. intros e He.
      unfold is_terminal in He. now apply orb_false_iff in He. }
  rewrite Hst, Herrs. rewrite Hp in Hpp.
  destruct (state_start_time (Window.window ss1)) as [start|] eqn:Est.
  - assert (Hstarted : existsb Window.is_started pre = true).
    { destruct (existsb Window.is_started pre) eqn:E; [reflexivity|].
      assert (Hn : Some start = None) by (apply Hs; auto). discriminate. }
    rewrite Hstarted.
    destruct Herr as [->|[msg ->]]; simpl;
      unfold Window.finish, Window.on_generation_error, Window.finish,
        Window.on_generation_finished; simpl;
      rewrite ?Est, ?Hpp; simpl;
      rewrite ?length_app, ?Hf, ?Hd; simpl; repeat split; lia.
  - assert (Hstarted : existsb Window.is_started pre = false)
      by (apply Hs; reflexivity).
    rewrite Hstarted.
    destruct Herr as [->|[msg ->]]; simpl;
      unfold Window.finish, Window.on_generation_error, Window.finish,
        Window.on_generation_finished; simpl;
      rewrite ?Est; simpl;
      rewrite ?length_app, ?Hf, ?Hd; simpl; repeat split; lia.
Qed.

Lemma one_record_per_started_run_witness :
  let ss :=
    {| Window.window :=
         {| worker := None; state_start_time := None;
            params := Some three_triggers |};
       Window.files := []; Window.dialogs := [] |} in
  exists tr,
    execute busy_device short_train 20 = Finished tr
    /\ state_start_time
         (Window.window (Window.handle (fun i => (inject_Z (Z.of_nat i), []))
                           [] 0 tr ss)) = None
    /\ length (Window.files
                 (Window.handle (fun i => (inject_Z (Z.of_nat i), []))
                    [] 0 tr ss))
       = (0 + if existsb Window.is_started tr then 1 else 0)%nat
    /\ length (Window.dialogs
                 (Window.handle (fun i => (inject_Z (Z.of_nat i), []))
                    [] 0 tr ss))
       = (0 + occurrences is_error tr)%nat.
Proof.
  cbv zeta. eexists. split; [vm_compute; reflexivity|].
  apply (one_record_per_started_run busy_device short_train 20 _
           (fun i => (inject_Z (Z.of_nat i), [])) []
           {| Window.window :=
                {| worker := None; state_start_time := None;
                   params := Some three_triggers |};
              Window.files := []; Window.dialogs := [] |}
           three_triggers).
  - vm_compute. reflexivity.
  - reflexivity.
  - reflexivity.
Defined.

(* --------------------------------------------------------------------- *)
(** ** How an infinite run ends *)
(* --------------------------------------------------------------------- *)

Section Endless.
Variable w : world.
Variable self : DAQWorker.
Hypothesis Hns : never_stopped w self.

Lemma on_return_bind {A B} (Pre : state -> Prop) (Mid : A -> state -> Prop)
    (Post : B -> state -> Prop) (m : M A) (k : A -> M B) :
  on_return Pre m Mid ->
  (forall a, on_return (Mid a) (k a) Post) ->
  on_return Pre (bind m k) Post.
Proof.
  intros Hm Hk s Hs b. unfold bind. specialize (Hm s Hs).
  destruct (m s) as [[a|msg|] s']; simpl in *; [|discriminate..].
  apply Hk. now apply Hm.
Qed.

Lemma on_return_any {A} (Pre : state -> Prop) (m : M A) :
  on_return Pre m (fun _ _ => True).
Proof. intros s _ a _. exact I. Qed.

Lemma on_return_bind_not_stopped {B} (Pre : state -> Prop)
    (Post : B -> state -> Prop) (k : bool -> M B) :
  on_return Pre (k false) Post ->
  on_return Pre (bind (stop_requested w self) k) Post.
Proof using Hns.
  intros Hk s Hs b. unfold bind, stop_requested.
  destruct Hns as [H1 H2]. rewrite H1, H2. simpl. now apply Hk.
Qed.

Lemma on_return_raise {A} (Pre : state -> Prop) (Post : A -> state -> Prop)
    (msg : string) :
  on_return Pre (lift (Exc msg)) Post.
Proof. intros s _ a H. discriminate. Qed.

(** When [start_main] returns, [t] is bound to the main task. *)
Lemma start_main_binds (mode : sample_mode) (n : Z) (data : list Q) :
  on_return (fun _ => True) (start_main w self mode n data)
            (fun _ s => t_bound s).
Proof.
  intros s _ a. unfold start_main, bind, call, assign_t, t_bound.
  repeat match goal with
         | |- context [driver w ?h ?c] => destruct (driver w h c)
         end; simpl; (discriminate || reflexivity).
Qed.

(** The polling loop of the infinite mode returns only on a stop
    request. *)
Lemma poll_stop_never_returns (fuel : nat) (Pre : state -> Prop) :
  on_return Pre (poll_stop w self fuel) (fun _ _ => False).
Proof using Hns.
  revert Pre. induction fuel as [|fuel IH]; intros Pre; simpl.
  { intros s _ a H. discriminate. }
  apply on_return_bind_not_stopped.
  apply (on_return_bind _ (fun _ _ => True)); [apply on_return_any|].
  intros _. apply IH.
Qed.

End Endless.

Ltac return_step Hns :=
  lazymatch goal with
  | |- on_return _ (bind (stop_requested _ _) _) _ =>
      apply (on_return_bind_not_stopped _ _ Hns)
  | |- on_return _ (bind _ _) _ =>
      apply (on_return_bind _ (fun _ _ => True)); [apply on_return_any|];
      intros ?
  | |- on_return _ (start_main _ _ _ _ _) _ =>
      apply (start_main_binds _ _)
  | |- on_return _ (if false then _ else _) _ => cbv beta iota
  end.

(** In infinite mode, when nobody asks for a stop, the [try] block does
    not return. *)
Lemma generate_endless (w : world) (self : DAQWorker) (fuel : nat) :
  DAQ_AVAILABLE w = true -> infinite self = true -> never_stopped w self ->
  on_return (fun _ => True) (generate w self fuel) (fun _ _ => False).
Proof.
  intros Hav Hinf Hns. unfold generate. rewrite Hav, Hinf. cbv zeta.
  simpl negb. cbv iota.
  apply (on_return_bind _ (fun _ _ => True)); [apply on_return_any|].
  intros cycle.
  apply (on_return_bind _ (fun _ _ => True)); [apply on_return_any|].
  intros _.
  apply (on_return_bind _ (fun _ s => t_bound s)).
  { destruct (0 <? initial_delay_samples self)%Z; repeat return_step Hns. }
  intros _.
  apply (on_return_bind _ (fun _ s => t_bound s)).
  { intros s Hs a _. 
    destruct (true && (initial_delay_samples self =? 0)%Z); exact Hs. }
  intros _ s Hs a. unfold bind at 1, read_t at 1. unfold t_bound in Hs.
  rewrite Hs.
  assert (Hfin : on_return (fun _ => True)
                   (poll_stop w self fuel >>
                    call w (StopTask t_main) >> call w (ClearTask t_main))
                   (fun _ _ => False)).
  { apply (on_return_bind _ (fun _ _ => False));
      [apply (poll_stop_never_returns w self Hns) | intros _ s' []]. }
  intros Hret. exact (Hfin s I a Hret).
Qed.

(** X17: in infinite mode, when PyDAQmx is available and nobody asks for
    a stop, a run never completes by itself: either it goes on for ever,
    or it ends on an error, reported by the error signal. *)
Theorem infinite_run_ends_on_error_only (w : world) (self : DAQWorker)
    (fuel : nat) (tr : list event) :
  DAQ_AVAILABLE w = true -> infinite self = true -> never_stopped w self ->
  execute w self fuel = Finished tr ->
  exists msg, error_emit msg ∈ tr.
Proof.
  intros Hav Hinf Hns Hex.
  pose proof (execute_shape w self fuel) as H. rewrite Hex in H.
  destruct H as (sd & -> & _).
  pose proof (generate_endless w self fuel Hav Hinf Hns fresh I) as Hnr.
  destruct ((generate w self fuel fresh).1) as [a|msg|] eqn:E.
  - destruct (Hnr a eq_refl).
  - exists msg. apply elem_of_app. right. simpl. apply list_elem_of_here.
  - unfold execute, run, try_finally, try_except in Hex.
    destruct (generate w self fuel fresh) as [[[]|m|] sg]; simpl in *;
      discriminate.
Qed.

Lemma infinite_run_ends_on_error_only_witness :
  exists msg,
    error_emit msg
    ∈ [ started_emit;
        daq (Task t_delay) None;
        daq (CreateAOVoltageChan t_delay (lit "Dev2/ao0")) None;
        daq (CfgSampClkTiming t_delay 10 DAQmx_Val_FiniteSamps 5) None;
        daq (WriteAnalogF64 t_delay 5 false [0; 0; 0; 0; 0]) None;
        daq (StartTask t_delay) (Some "Start failed"%string);
        error_emit "Start failed";
        sleep (1 # 20);
        daq (Task t_zero) None;
        daq (CreateAOVoltageChan t_zero (lit "Dev2/ao0")) None;
        daq (StartTask t_zero) None;
        daq (WriteAnalogScalarF64 t_zero 0) None;
        daq (StopTask t_zero) None;
        daq (ClearTask t_zero) None;
        finished_emit ].
Proof.
  apply (infinite_run_ends_on_error_only delay_start_fails delayed_train 20).
  - reflexivity.
  - reflexivity.
  - split; [reflexivity | intros h; reflexivity].
  - vm_compute. reflexivity.
Defined.


